(** * node-cups-printer: a shallow embedding of the CUPS command-line driver

    The driver enumerates printers by running [lpstat] and parsing its text
    output, and submits jobs by running [lp].  This development embeds the
    JavaScript source function by function and proves properties of the
    printer-status parser ([extractPrinters]), of the job-submission
    translator ([lp_print], [printDirect]) and of the cached printer
    directory (class [Printer]).

    Conventions of the embedding:
    - a JavaScript string is a [string]; each [ascii] stands for one UTF-16
      code unit below 256 (the texts handled here are ASCII command output);
    - [undefined] is [None];
    - an integral JavaScript number is a [Z];
    - a thrown exception or a rejected promise is an explicit result value;
    - an array that is shared between caller and callee lives in a store
      ([gmap loc (list string)]) and is passed by its location. *)

From stdpp Require Import base option list gmap strings.
From Stdlib Require Import ZArith Ascii DecimalString DecimalN DecimalZ.

Local Open Scope string_scope.
Local Open Scope list_scope.

(** ** JavaScript string primitives *)

Module JS.

(** [s.startsWith(p)] *)
Fixpoint startsWith (p s : string) : bool :=
  match p, s with
  | EmptyString, _ => true
  | String _ _, EmptyString => false
  | String a p', String b s' => if Ascii.eqb a b then startsWith p' s' else false
  end.

(** [s.includes(needle)] for a string [needle] *)
Fixpoint includes (needle s : string) : bool :=
  startsWith needle s ||
  match s with
  | EmptyString => false
  | String _ s' => includes needle s'
  end.

(** The filter callback [Boolean] on strings: only the empty string is falsy. *)
Definition truthy (s : string) : bool :=
  match s with EmptyString => false | String _ _ => true end.

(** [s.split(sep)] for a non-empty separator string: the leftmost,
    non-overlapping occurrences of [sep] cut [s].  [split_go sep skip s]
    returns the piece under construction and the pieces after it; [skip]
    counts the code units of a matched separator still to be dropped. *)
Fixpoint split_go (sep : string) (skip : nat) (s : string) : string * list string :=
  match s with
  | EmptyString => (EmptyString, [])
  | String c s' =>
      match skip with
      | S k => split_go sep k s'
      | O =>
          if startsWith sep s
          then let '(t, r) := split_go sep (String.length sep - 1) s' in
               (EmptyString, t :: r)
          else let '(t, r) := split_go sep 0 s' in
               (String c t, r)
      end
  end.

Definition split (sep s : string) : list string :=
  let '(t, r) := split_go sep 0 s in t :: r.

(** The line feed, code unit 10 (written \n in the source). *)
Definition LF : string := String (ascii_of_nat 10) EmptyString.

(** The double quote, code unit 34. *)
Definition DQ : string := String (ascii_of_nat 34) EmptyString.

(** [a.join(sep)] on an array of strings *)
Fixpoint join (sep : string) (l : list string) : string :=
  match l with
  | [] => ""
  | [x] => x
  | x :: r => x ++ sep ++ join sep r
  end.

(** White space and line terminators below code unit 256:
    TAB, LF, VT, FF, CR, SP and NBSP. *)
Definition is_space (c : ascii) : bool :=
  let n := nat_of_ascii c in
  ((9 <=? n) && (n <=? 13) || (n =? 32) || (n =? 160))%nat.

Fixpoint trimStart (s : string) : string :=
  match s with
  | EmptyString => EmptyString
  | String c s' => if is_space c then trimStart s' else s
  end.

Fixpoint trimEnd (s : string) : string :=
  match s with
  | EmptyString => EmptyString
  | String c s' =>
      let t := trimEnd s' in
      if is_space c && negb (truthy t) then EmptyString else String c t
  end.

(** [s.trim()] *)
Definition trim (s : string) : string := trimEnd (trimStart s).

(** [s.slice(n)] for [0 <= n] *)
Fixpoint slice (n : nat) (s : string) : string :=
  match n, s with
  | O, _ => s
  | S _, EmptyString => EmptyString
  | S k, String _ s' => slice k s'
  end.

(** [s.toLowerCase()]: below code unit 256 the letters with a lower-case
    partner are A-Z, and the Latin-1 capitals 192-222 except the
    multiplication sign 215. *)
Definition lower_char (c : ascii) : ascii :=
  let n := nat_of_ascii c in
  if ((65 <=? n) && (n <=? 90) || (192 <=? n) && (n <=? 222) && negb (n =? 215))%nat
  then ascii_of_nat (n + 32) else c.

Fixpoint toLowerCase (s : string) : string :=
  match s with
  | EmptyString => EmptyString
  | String c s' => String (lower_char c) (toLowerCase s')
  end.

(** [a[i]] on an array of strings that is never read out of range: the
    arrays indexed this way come from [split], which has at least one
    element (see [split_length_pos]), so the default is never returned. *)
Definition at_index (l : list string) (i : nat) : string := default "" (l !! i).

(** [ToString] of a value that is a string or [undefined], as string
    concatenation and [includes] apply it to their argument. *)
Definition str (v : option string) : string := default "undefined" v.

(** Truthiness of a value that is a string or [undefined]. *)
Definition truthy_opt (v : option string) : bool :=
  match v with Some s => truthy s | None => false end.

(** [a.find(p)] *)
Fixpoint find {A} (p : A -> bool) (l : list A) : option A :=
  match l with
  | [] => None
  | x :: r => if p x then Some x else find p r
  end.

(** *** Numbers *)

(** The result of [ToNumber] on a string.  [Finite neg m e] is the
    mathematical value [(-1)^neg * m * 10^e] of the numeric literal; the
    JavaScript number is that value rounded to the nearest double, which
    leaves an integer below 2^53 as it is. *)
Inductive number :=
  | NaN
  | Infinity (neg : bool)
  | Finite (neg : bool) (m : N) (e : Z).

Definition Int (n : N) : number := Finite false n 0.

Definition is_digit (c : ascii) : bool :=
  let n := nat_of_ascii c in ((48 <=? n) && (n <=? 57))%nat.

(** The longest prefix of decimal digits, and the rest. *)
Fixpoint span_digits (s : string) : string * string :=
  match s with
  | EmptyString => (EmptyString, EmptyString)
  | String c s' =>
      if is_digit c
      then let '(d, r) := span_digits s' in (String c d, r)
      else (EmptyString, s)
  end.

(** The value of a string of decimal digits. *)
Definition digits_value (ds : string) : N :=
  match NilEmpty.uint_of_string ds with
  | Some u => N.of_uint u
  | None => 0
  end.

(** The value of a digit in a base up to 16, if it is one. *)
Definition digit_in_base (base : N) (c : ascii) : option N :=
  let n := N_of_ascii c in
  let v :=
    (if (48 <=? n) && (n <=? 57) then Some (n - 48)
     else if (97 <=? n) && (n <=? 102) then Some (n - 87)
     else if (65 <=? n) && (n <=? 70) then Some (n - 55)
     else None)%N in
  match v with
  | Some d => if (d <? base)%N then Some d else None
  | None => None
  end.

Fixpoint based_value (base : N) (acc : N) (s : string) : option N :=
  match s with
  | EmptyString => Some acc
  | String c s' =>
      match digit_in_base base c with
      | Some d => based_value base (acc * base + d)%N s'
      | None => None
      end
  end.

(** [NonDecimalIntegerLiteral]: 0x, 0o or 0b (either case) and at least
    one digit of that base. *)
Definition non_decimal (s : string) : option N :=
  match s with
  | String "0" (String p (String c r)) =>
      let body := String c r in
      if Ascii.eqb p "x" || Ascii.eqb p "X" then based_value 16 0 body
      else if Ascii.eqb p "o" || Ascii.eqb p "O" then based_value 8 0 body
      else if Ascii.eqb p "b" || Ascii.eqb p "B" then based_value 2 0 body
      else None
  | _ => None
  end.

(** [ExponentPart_opt] at the end of the literal: the exponent, or [None]
    when what is left is not an exponent part. *)
Definition exponent_part (s : string) : option Z :=
  match s with
  | EmptyString => Some 0%Z
  | String c r =>
      if Ascii.eqb c "e" || Ascii.eqb c "E" then
        let '(neg, r) :=
          match r with
          | String "+" r' => (false, r')
          | String "-" r' => (true, r')
          | _ => (false, r)
          end in
        let '(ds, rest) := span_digits r in
        if truthy ds && negb (truthy rest)
        then Some (if neg then - Z.of_N (digits_value ds) else Z.of_N (digits_value ds))%Z
        else None
      else None
  end.

(** [StrUnsignedDecimalLiteral] *)
Definition unsigned_decimal (neg : bool) (s : string) : number :=
  if String.eqb s "Infinity" then Infinity neg else
  let '(ip, r1) := span_digits s in
  let '(dot, fp, r2) :=
    match r1 with
    | String "." r => let '(fp, r2) := span_digits r in (true, fp, r2)
    | _ => (false, EmptyString, r1)
    end in
  if truthy ip || (dot && truthy fp) then
    match exponent_part r2 with
    | Some e => Finite neg (digits_value (ip ++ fp)) (e - Z.of_nat (String.length fp))
    | None => NaN
    end
  else NaN.

(** [ToNumber] of a string, which is what unary [+] computes on one. *)
Definition ToNumber (s : string) : number :=
  let t := trim s in
  match t with
  | EmptyString => Int 0
  | String "+" r => unsigned_decimal false r
  | String "-" r => unsigned_decimal true r
  | _ =>
      match non_decimal t with
      | Some n => Int n
      | None => unsigned_decimal false t
      end
  end.

(** [ToString] of an integral number below 10^21 in absolute value. *)
Definition string_of_Z (z : Z) : string := NilZero.string_of_int (Z.to_int z).

End JS.

(** ** The printer-status parser *)

(** [PrinterDetails]: [name] is [words[1]] of a header line, which is
    [undefined] when the line is the single word "printer". *)
Record PrinterDetails := mkPrinterDetails {
  name : option string;
  isDefault : bool;
  options : gmap string string
}.

(** [LPSTAT_out] with the five keys of [lpstat_commands]; the field of the
    key "default" carries the name the source destructures it to. *)
Record LPSTAT_out := mkStats {
  printers : string;
  accepting : string;
  addresses : string;
  defaultPrinter : string;
  details : string
}.

Definition lpstat_detail_ki : list (string * string) :=
  [ ("printer-info", "Description: ");
    ("printer-location", "Location: ") ].

(** The body of [if (details) { ... }]: the rows of the block, trimmed and
    without the empty ones, searched once per entry of [lpstat_detail_ki]. *)
Definition detail_info (block : string) : gmap string string :=
  let rows := filter (fun r => JS.truthy r = true) (JS.trim <$> JS.split JS.LF block) in
  fold_left
    (fun info '(key, flt) =>
       match JS.find (JS.startsWith flt) rows with
       | Some row =>
           if JS.truthy row
           then <[key := JS.trim (JS.slice (String.length flt) row)]> info
           else info
       | None => info
       end)
    lpstat_detail_ki ∅.

(** The record built for a header line whose second word is [nm]. *)
Definition header_record (stats : LPSTAT_out) (nm : option string) : PrinterDetails :=
  let addressLines := JS.split JS.LF (addresses stats) in
  let acceptingLines := JS.split JS.LF (accepting stats) in
  let printerDetails :=
    filter (fun b => JS.truthy b = true) (JS.split (JS.LF ++ "printer") (details stats)) in
  let isDefault := JS.includes (JS.str nm) (defaultPrinter stats) in
  let socket_line := JS.find (JS.includes (JS.str nm ++ ": ")) addressLines in
  let socket :=
    match socket_line with
    | Some l =>
        if JS.truthy l
        then JS.at_index (JS.split " " l) (length (JS.split " " l) - 1)
        else ""
    | None => ""
    end in
  let acceptingRequests :=
    if JS.truthy_opt (JS.find (JS.includes (JS.str nm ++ " accepting")) acceptingLines)
    then "true" else "false" in
  let details := JS.find (JS.includes (JS.str nm ++ " ")) printerDetails in
  let info :=
    match details with
    | Some block => if JS.truthy block then detail_info block else ∅
    | None => ∅
    end in
  {| name := nm;
     isDefault := isDefault;
     options :=
       info ∪ <["device-uri" := socket]> {["printer-is-accepting-jobs" := acceptingRequests]} |}.

(** One iteration of [for (const line of lines)]: the state is
    [currentPrinter] and [result]. *)
Definition extract_line (stats : LPSTAT_out)
    (st : option PrinterDetails * list PrinterDetails) (line : string)
    : option PrinterDetails * list PrinterDetails :=
  let '(currentPrinter, result) := st in
  let words := JS.split " " line in
  let currentPrinter :=
    if decide (words !! 0 = Some "printer")
    then Some (header_record stats (words !! 1))
    else currentPrinter in
  match currentPrinter with
  | Some p => (currentPrinter, result ++ [p])
  | None => (currentPrinter, result)
  end.

Definition extractPrinters (stats : LPSTAT_out) : list PrinterDetails :=
  snd (fold_left (extract_line stats) (JS.split JS.LF (printers stats)) (None, [])).


(** ** The process runner *)

(** What is thrown, or what a promise is rejected with: an [Error] object
    with its message, a plain string (the asynchronous runners reject with
    one), or the [TypeError] of a property read on [undefined]. *)
Inductive exn :=
  | Error (message : string)
  | Reason (text : string)
  | TypeError.

(** The eventual state of a promise. *)
Inductive promise (A : Type) :=
  | Pending
  | Fulfilled (v : A)
  | Rejected (e : exn).
Arguments Pending {A}.
Arguments Fulfilled {A} v.
Arguments Rejected {A} e.

(** A payload piped to the standard input of a command. *)
Inductive payload :=
  | Text (s : string)
  | Buffer (bytes : string).

(** One call of [spawn] or [spawnSync]. *)
Record invocation := mkInvocation {
  command : string;
  argv : list string;
  stdin : option payload
}.

(** The object [spawnSync] returns: [status] is [null] when the process
    could not be started or was killed by a signal, and the two outputs
    are [null] when it could not be started. *)
Record child := mkChild {
  status : option Z;
  stdout : option string;
  stderr : option string
}.

(** How a process started by [spawn] ends for its caller: the close event
    with the exit code ([null] after a signal) and what the two output
    streams delivered, or an exception thrown by [spawn] itself, as the
    string it concatenates to. *)
Inductive exit :=
  | Close (code : option Z) (out err : string)
  | SpawnThrows (err : string).

(** The operating system, as far as the driver sees it. *)
Record system := mkSystem {
  spawnSync : invocation -> child;
  spawn : invocation -> exit
}.

Definition e_msg (cmd : string) (args : list string) : string :=
  "Failed to run command '" ++ cmd ++ " " ++ JS.join " " args ++ "'".

Definition runCommand (os : system) (cmd : string) (args : list string)
    : promise string :=
  match spawn os (mkInvocation cmd args None) with
  | Close code out err =>
      if decide (code = Some 0%Z) then Fulfilled out
      else Rejected (Reason (e_msg cmd args ++ " - " ++ err))
  | SpawnThrows err => Rejected (Reason (e_msg cmd args ++ " - " ++ err))
  end.

Definition runCommandSync (os : system) (cmd : string) (args : list string)
    : string + exn :=
  let child := spawnSync os (mkInvocation cmd args None) in
  let stdout := default "" (stdout child) in
  let stderr := default "" (stderr child) in
  if decide (status child = Some 0%Z) then inl stdout
  else
    let code := match status child with Some z => JS.string_of_Z z | None => "null" end in
    inr (Error (e_msg cmd args ++ " - "
                ++ (if JS.truthy stderr then stderr
                    else "Unknown error code '" ++ code ++ "'"))).

Definition runCommandPipe (os : system) (cmd : string) (input : payload)
    (args : list string) : promise string :=
  match spawn os (mkInvocation cmd args (Some input)) with
  | Close code out err =>
      if decide (code = Some 0%Z) then Fulfilled out
      else Rejected (Reason (e_msg cmd args ++ " - " ++ err))
  | SpawnThrows err => Rejected (Reason (e_msg cmd args ++ " - " ++ err))
  end.

(** ** The job-submission translator *)

(** A value that is a number or a string ([quality], [orientation]). *)
Inductive numstr :=
  | Num (z : Z)
  | Str (s : string).

Definition numstr_truthy (v : option numstr) : bool :=
  match v with
  | Some (Num z) => negb (z =? 0)%Z
  | Some (Str s) => JS.truthy s
  | None => false
  end.

Definition numstr_string (v : option numstr) : string :=
  match v with
  | Some (Num z) => JS.string_of_Z z
  | Some (Str s) => s
  | None => "undefined"
  end.

Definition payload_truthy (v : option payload) : bool :=
  match v with
  | Some (Text s) => JS.truthy s
  | Some (Buffer _) => true
  | None => false
  end.

Definition num_truthy (v : option Z) : bool :=
  match v with Some z => negb (z =? 0)%Z | None => false end.

(** Arrays are objects: a caller and [lp_print] share the array [args]
    through its location in the store. *)
Definition loc := positive.
Abbreviation store := (gmap loc (list string)).

(** [PrintOptions] *)
Record PrintOptions := mkPrintOptions {
  printer : option string;
  type : option string;
  data : option payload;
  file : option string;
  host : option string;
  port : option Z;
  username : option string;
  encryption : option bool;
  title : option string;
  quality : option numstr;
  orientation : option numstr;
  copies : option Z;
  args : option loc
}.

(** [a.push(x, ...)] on the array at [l] *)
Definition push (l : loc) (xs : list string) (σ : store) : store :=
  alter (fun a => a ++ xs) l σ.

(** [if (c) stmt] for a statement that only changes the store *)
Definition when (c : bool) (stmt : store -> store) (σ : store) : store :=
  if c then stmt σ else σ.

(** The array behind [...args] at the call *)
Definition spread (l : loc) (σ : store) : list string := default [] (σ !! l).

(** The callback that turns the response of [lp] into the job id. *)
Definition callback (response : string) : JS.number :=
  let split := filter (fun w => JS.truthy w = true) (JS.split " " response) in
  let jobIdLong :=
    if (3 <? length split)%nat then JS.at_index split (length split - 3) else response in
  JS.ToNumber
    (JS.at_index (JS.split "-" jobIdLong) (length (JS.split "-" jobIdLong) - 1)).

(** [p.then(callback)] where [callback] calls [resolve]: a rejection of
    [p] has no handler and never reaches the promise of [lp_print]. *)
Definition then_resolve (p : promise string) : promise JS.number :=
  match p with
  | Fulfilled response => Fulfilled (callback response)
  | _ => Pending
  end.

(** What a call leaves behind: the store, the processes it started, in
    order, and what it returns. *)
Record outcome (A : Type) := mkOutcome {
  heap : store;
  spawned : list invocation;
  returned : A
}.
Arguments mkOutcome {A} heap spawned returned.
Arguments heap {A} o.
Arguments spawned {A} o.
Arguments returned {A} o.

Definition lp_print (os : system) (options : PrintOptions) (σ : store)
    : outcome (promise JS.number) :=
  (* const args = options.args || [] *)
  let '(args, σ) :=
    match args options with
    | Some l => (l, σ)
    | None => let l := fresh (dom σ) in (l, <[l := []]> σ)
    end in
  let printer := printer options in
  let type :=
    JS.toLowerCase
      (match type options with
       | Some t => if JS.truthy t then t else "RAW"
       | None => "RAW"
       end) in
  let data := data options in
  let file := file options in
  let host :=
    match host options with
    | Some h =>
        if JS.truthy h
        then JS.join ":"
               (filter (fun w => JS.truthy w = true)
                  [h; if num_truthy (port options)
                      then JS.string_of_Z (default 0%Z (port options)) else ""])
        else ""
    | None => ""
    end in
  let username := username options in
  let encryption := default false (encryption options) in
  let title := title options in
  let quality := quality options in
  let orientation := orientation options in
  let copies := copies options in
  if negb (JS.truthy_opt printer)
  then mkOutcome σ [] (Rejected (Error "No printer provided"))
  else if negb (payload_truthy data) && negb (JS.truthy_opt file)
  then mkOutcome σ [] (Rejected (Error "No data or file provided"))
  else
    let σ := when (negb (JS.truthy_opt file)) (push args ["-o"; type]) σ in
    let σ := when (num_truthy copies) (push args ["-n"; JS.string_of_Z (default 0%Z copies)]) σ in
    let σ := when (JS.truthy_opt printer) (push args ["-d"; JS.str printer]) σ in
    let σ := when (JS.truthy host) (push args ["-h"; host]) σ in
    let σ := when (JS.truthy_opt username) (push args ["-U"; JS.str username]) σ in
    let σ := when (JS.truthy_opt title) (push args ["-T"; JS.str title]) σ in
    let σ := when (numstr_truthy quality)
               (push args ["-o"; "print-quality=" +:+ numstr_string quality]) σ in
    let σ := when (numstr_truthy orientation)
               (push args ["-o"; "orientation-requested=" +:+ numstr_string orientation]) σ in
    let σ := when encryption (push args ["-E"]) σ in
    if JS.truthy_opt file then
      let σ := push args ["--"; JS.str file] σ in
      mkOutcome σ [mkInvocation "lp" (spread args σ) None]
        (then_resolve (runCommand os "lp" (spread args σ)))
    else
      match data with
      | Some input =>
          if payload_truthy data then
            mkOutcome σ [mkInvocation "lp" (spread args σ) (Some input)]
              (then_resolve (runCommandPipe os "lp" input (spread args σ)))
          else mkOutcome σ [] (Rejected (Error "No data or file provided"))
      | None => mkOutcome σ [] (Rejected (Error "No data or file provided"))
      end.


(** [PrintDirectOptions]: [d_options] lists the own properties of the
    options object in the order [for ... in] enumerates them; for the two
    callbacks only their presence is recorded. *)
Record PrintDirectOptions := mkPrintDirectOptions {
  d_data : option payload;
  d_printer : option string;
  d_type : option string;
  d_options : option (list (string * string));
  success : bool;
  error : bool
}.

(** What the caller of [printDirect] observes. *)
Inductive direct :=
  | Throws (e : exn)
  | ErrorCalled (e : exn)
  | SuccessCalled (jobId : JS.number)
  | NeitherCalled.

(** [p.then(success).catch(error)] *)
Definition then_callbacks (p : promise JS.number) : direct :=
  match p with
  | Fulfilled jobId => SuccessCalled jobId
  | Rejected e => ErrorCalled e
  | Pending => NeitherCalled
  end.

Definition printDirect (os : system) (options : PrintDirectOptions) (σ : store)
    : outcome direct :=
  if negb (error options)
  then mkOutcome σ [] (Throws (Error "No error callback provided"))
  else if negb (success options)
  then mkOutcome σ [] (ErrorCalled (Error "No success callback provided"))
  else if negb (payload_truthy (d_data options))
  then mkOutcome σ [] (ErrorCalled (Error "No data provided"))
  else if negb (JS.truthy_opt (d_printer options))
  then mkOutcome σ [] (ErrorCalled (Error "No printer provided"))
  else
    (* const args = [] *)
    let args := fresh (dom σ) in
    let σ := <[args := []]> σ in
    let σ := when (JS.truthy_opt (d_type options)) (push args ["-o"; JS.str (d_type options)]) σ in
    let σ :=
      match d_options options with
      | Some optionsObj =>
          fold_left (fun σ '(key, value) => push args ["-o"; key +:+ "=" +:+ value] σ)
            optionsObj σ
      | None => σ
      end in
    let o :=
      lp_print os
        (mkPrintOptions (d_printer options) None (d_data options) None None None
           None None None None None None (Some args)) σ in
    mkOutcome (heap o) (spawned o) (then_callbacks (returned o)).

(** ** [printDirect], with the callbacks as functions *)

Module Callbacks.

(** How a call of a callback ends: it returns a value other than a
    promise that rejects, it returns a promise that rejects with [e], or
    it throws [e]. *)
Inductive completion :=
  | Returns
  | ReturnsRejected (e : exn)
  | Raises (e : exn).

(** The value of a callback property: [undefined] or another falsy
    value, a truthy value that is not a function, or a function, given
    by how its call ends on each argument; what else the function does
    is its own and no part of what [printDirect] does. *)
Inductive handler (A : Type) :=
  | Missing
  | NotCallable
  | Callable (f : A -> completion).
Arguments Missing {A}.
Arguments NotCallable {A}.
Arguments Callable {A} f.

Definition truthy {A} (h : handler A) : bool :=
  match h with
  | Missing => false
  | _ => true
  end.

Record Options := mkOptions {
  data : option payload;
  printer : option string;
  type : option string;
  options : option (list (string * string));
  success : handler JS.number;
  error : handler exn
}.

(** A call of one of the two callbacks, with its argument. *)
Inductive call :=
  | SuccessCall (jobId : JS.number)
  | ErrorCall (e : exn).

(** What [printDirect] does with the callbacks: the calls it makes, in
    order; what it throws to its caller; and the reason the promise at
    the end of its chain is rejected with, which no handler receives. *)
Record observed := mkObserved {
  calls : list call;
  thrown : option exn;
  rejected : option exn
}.

(** [return error(e)]: calling a value that is not a function throws a
    [TypeError]; what the function throws, [printDirect] throws. *)
Definition return_error (error : handler exn) (e : exn) : observed :=
  match error with
  | Callable g =>
      mkObserved [ErrorCall e]
        (match g e with
         | Raises e' => Some e'
         | _ => None
         end)
        None
  | _ => mkObserved [] (Some TypeError) None
  end.

(** [p.then(success)]: the call it makes, and the reason its promise is
    rejected with, if it is.  An argument that is not a function is
    ignored. *)
Definition then_ (success : handler JS.number) (p : promise JS.number)
    : list call * option exn :=
  match p with
  | Fulfilled jobId =>
      match success with
      | Callable f =>
          ([SuccessCall jobId],
           match f jobId with
           | Returns => None
           | ReturnsRejected e => Some e
           | Raises e => Some e
           end)
      | _ => ([], None)
      end
  | Rejected e => ([], Some e)
  | Pending => ([], None)
  end.

(** [q.catch(error)] for a promise [q] rejected with [reason], if it is:
    the call it makes, and the reason its own promise is rejected with. *)
Definition catch_ (error : handler exn) (reason : option exn)
    : list call * option exn :=
  match reason with
  | Some e =>
      match error with
      | Callable g =>
          ([ErrorCall e],
           match g e with
           | Returns => None
           | ReturnsRejected e' => Some e'
           | Raises e' => Some e'
           end)
      | _ => ([], Some e)
      end
  | None => ([], None)
  end.

(** The [try] block has no [catch] branch here: [lp_print] returns its
    promise and neither [then] nor [catch] throws. *)
Definition printDirect (os : system) (o : Options) (σ : store) : outcome observed :=
  if negb (truthy (error o))
  then mkOutcome σ [] (mkObserved [] (Some (Error "No error callback provided")) None)
  else if negb (truthy (success o))
  then mkOutcome σ [] (return_error (error o) (Error "No success callback provided"))
  else if negb (payload_truthy (data o))
  then mkOutcome σ [] (return_error (error o) (Error "No data provided"))
  else if negb (JS.truthy_opt (printer o))
  then mkOutcome σ [] (return_error (error o) (Error "No printer provided"))
  else
    (* const args = [] *)
    let args := fresh (dom σ) in
    let σ := <[args := []]> σ in
    let σ := when (JS.truthy_opt (type o)) (push args ["-o"; JS.str (type o)]) σ in
    let σ :=
      match options o with
      | Some optionsObj =>
          fold_left (fun σ '(key, value) => push args ["-o"; key +:+ "=" +:+ value] σ)
            optionsObj σ
      | None => σ
      end in
    let p :=
      lp_print os
        (mkPrintOptions (printer o) None (data o) None None None
           None None None None None None (Some args)) σ in
    let '(called, reason) := then_ (success o) (returned p) in
    let '(called', reason') := catch_ (error o) reason in
    mkOutcome (heap p) (spawned p) (mkObserved (called ++ called') None reason').

End Callbacks.

(** ** The status snapshot *)

(** [lpstat_commands], in the order of its keys. *)
Definition lpstat_commands : list (string * list string) :=
  [ ("printers", ["lpstat"; "-p"]);
    ("accepting", ["lpstat"; "-a"]);
    ("addresses", ["lpstat"; "-s"]);
    ("default", ["lpstat"; "-d"]);
    ("details", ["lpstat"; "-l"; "-p"]) ].

Definition lpstat_keys : list string := fst <$> lpstat_commands.

(** [lpstat_commands[key]] *)
Definition lpstat_command (key : string) : option (list string) :=
  snd <$> JS.find (fun kc => bool_decide (fst kc = key)) lpstat_commands.

(** The destructuring at the head of [extractPrinters]; the method calls
    on the five texts that follow throw a [TypeError] on a missing key. *)
Definition stats_of_object (stats : gmap string string) : option LPSTAT_out :=
  accepting ← stats !! "accepting";
  defaultPrinter ← stats !! "default";
  addresses ← stats !! "addresses";
  printers ← stats !! "printers";
  details ← stats !! "details";
  Some (mkStats printers accepting addresses defaultPrinter details).

(** The [forEach] of the blocking load, from [key] on: the snapshot so
    far is [stats]; the first failing command ends the loop. *)
Fixpoint load_sync (os : system) (keys : list string) (stats : gmap string string)
    : list invocation * (gmap string string + exn) :=
  match keys with
  | [] => ([], inl stats)
  | key :: keys' =>
      match lpstat_command key with
      | Some (cmd :: args) =>
          match runCommandSync os cmd args with
          | inl response =>
              let '(log, r) := load_sync os keys' (<[key := response]> stats) in
              (mkInvocation cmd args None :: log, r)
          | inr e => ([mkInvocation cmd args None], inr e)
          end
      | _ => ([], inr TypeError)
      end
  end.

(** [lpstat_keys.map(key => runCommand(...lpstat_commands[key]))]: every
    command is started; the promises are in the order of the keys. *)
Definition load_async (os : system) : list invocation * list (promise string) :=
  let started :=
    (fun key =>
       match lpstat_command key with
       | Some (cmd :: args) => (mkInvocation cmd args None, runCommand os cmd args)
       | _ => (mkInvocation "" [] None, Rejected TypeError)
       end) <$> lpstat_keys in
  (fst <$> started, snd <$> started).

(** [Promise.all]: fulfilled with all the values when every promise is
    fulfilled; rejected with the reason of a rejected one (the one that
    settles first, which the order of the array does not determine). *)
Inductive Promise_all {A : Type} : list (promise A) -> promise (list A) -> Prop :=
  | all_fulfilled vs : Promise_all (Fulfilled <$> vs) (Fulfilled vs)
  | all_rejected ps e : Rejected e ∈ ps -> Promise_all ps (Rejected e)
  | all_pending ps :
      Pending ∈ ps -> (forall e, Rejected e ∉ ps) -> Promise_all ps Pending.

(** ** The printer directory *)

Module Printer.

(** The fields of the class; [refreshInterval] holds the interval of the
    timer that [setInterval] returned, if one is installed. *)
Record t := mk {
  printers : list PrinterDetails;
  printersLoaded : bool;
  refreshInterval : option Z
}.

(** [constructor()] *)
Definition new : t := mk [] false None.

(** What a method call leaves behind: the object, the processes started,
    the background refresh started (the promises given to [Promise.all]),
    and the value returned or the exception thrown. *)
Record call (A : Type) := mkCall {
  this' : t;
  started : list invocation;
  refresh : option (list (promise string));
  result : A + exn
}.
Arguments mkCall {A} this' started refresh result.
Arguments this' {A} c.
Arguments started {A} c.
Arguments refresh {A} c.
Arguments result {A} c.

(** [autoRefresh(interval)]: a timer object is truthy whatever its interval. *)
Definition autoRefresh (this : t) (interval : option Z) : t :=
  mk (printers this) (printersLoaded this)
     (Some (if num_truthy interval then default 0%Z interval else 15000%Z)).

(** The callback given to [Promise.all(...).then]. *)
Definition on_responses (this : t) (responses : list string) : t :=
  let stats :=
    fold_left (fun stats '(key, response) => <[key := response]> stats)
      (zip lpstat_keys responses) (∅ : gmap string string) in
  match stats_of_object stats with
  | Some st => mk (extractPrinters st) true (refreshInterval this)
  | None => this
  end.

(** The object once the background refresh has settled: a rejection has
    no handler and changes nothing. *)
Inductive refresh_settles (this : t) (ps : list (promise string)) : t -> Prop :=
  | refresh_applied responses :
      Promise_all ps (Fulfilled responses) ->
      refresh_settles this ps (on_responses this responses)
  | refresh_dropped e :
      Promise_all ps (Rejected e) ->
      refresh_settles this ps this.

Definition getPrinters (os : system) (this : t) : call (list PrinterDetails) :=
  if negb (printersLoaded this) then
    match load_sync os lpstat_keys ∅ with
    | (log, inl stats) =>
        match stats_of_object stats with
        | Some st =>
            let this := mk (extractPrinters st) true (refreshInterval this) in
            mkCall this log None (inl (printers this))
        | None => mkCall this log None (inr TypeError)
        end
    | (log, inr e) => mkCall this log None (inr e)
    end
  else
    let '(log, ps) := load_async os in
    mkCall this log (Some ps) (inl (printers this)).

Definition getPrinter (os : system) (this : t) (printerName : string)
    : call (option PrinterDetails) :=
  let lookup (this : t) :=
    JS.find (fun p => bool_decide (name p = Some printerName)) (printers this) in
  if negb (printersLoaded this) || negb (bool_decide (is_Some (refreshInterval this))) then
    let c := getPrinters os this in
    match result c with
    | inl _ => mkCall (this' c) (started c) (refresh c) (inl (lookup (this' c)))
    | inr e => mkCall (this' c) (started c) (refresh c) (inr e)
    end
  else mkCall this [] None (inl (lookup this)).

(** [print(options)]: the executor of the promise it returns; an
    exception thrown in the executor rejects the promise. *)
Definition print (os : system) (this : t) (options : PrintOptions) (σ : store)
    : call unit * outcome (promise JS.number) :=
  if negb (JS.truthy_opt (printer options))
  then (mkCall this [] None (inl ()),
        mkOutcome σ [] (Rejected (Error "Printer name is required")))
  else
    let c := getPrinter os this (JS.str (printer options)) in
    let done := mkCall (this' c) (started c) (refresh c) (inl ()) in
    match result c with
    | inr e => (done, mkOutcome σ [] (Rejected e))
    | inl None =>
        (done,
         mkOutcome σ []
           (Rejected (Error ("Printer " ++ JS.DQ ++ JS.str (printer options)
                             ++ JS.DQ ++ " not found"))))
    | inl (Some _) => (done, lp_print os options σ)
    end.

(** [printDirect(options)], the method: an exception of [getPrinter] is
    not caught, so it leaves the method whatever callbacks were given. *)
Definition printDirect (os : system) (this : t) (options : PrintDirectOptions)
    (σ : store) : call unit * outcome direct :=
  if negb (error options)
  then (mkCall this [] None (inl ()),
        mkOutcome σ [] (Throws (Error "No error callback provided")))
  else if negb (JS.truthy_opt (d_printer options))
  then (mkCall this [] None (inl ()),
        mkOutcome σ [] (ErrorCalled (Error "No printer provided")))
  else
    let c := getPrinter os this (JS.str (d_printer options)) in
    let done := mkCall (this' c) (started c) (refresh c) (inl ()) in
    match result c with
    | inr e => (done, mkOutcome σ [] (Throws e))
    | inl None =>
        (done,
         mkOutcome σ []
           (ErrorCalled (Error ("Printer " ++ JS.DQ ++ JS.str (d_printer options)
                                ++ JS.DQ ++ " not found"))))
    | inl (Some _) => (done, printDirect os options σ)
    end.

End Printer.

(** ** The parser of vovk-cups-printer.js *)

(** The second source file carries an earlier [extractPrinters], which
    reads only the listing and has the same loop. *)
Module Vovk.

Definition extract_line
    (st : option PrinterDetails * list PrinterDetails) (line : string)
    : option PrinterDetails * list PrinterDetails :=
  let '(currentPrinter, result) := st in
  let words := JS.split " " line in
  let currentPrinter :=
    if decide (words !! 0 = Some "printer")
    then Some {| name := words !! 1; isDefault := false; options := ∅ |}
    else currentPrinter in
  match currentPrinter with
  | Some p => (currentPrinter, result ++ [p])
  | None => (currentPrinter, result)
  end.

Definition extractPrinters (input : string) : list PrinterDetails :=
  snd (fold_left extract_line (JS.split JS.LF input) (None, [])).

(** The callback of the earlier [lp_print]: the job id is a string. *)
Definition callback (response : string) : string :=
  let split := filter (fun w => JS.truthy w = true) (JS.split " " response) in
  if (3 <? length split)%nat then JS.at_index split (length split - 3) else response.

Definition then_resolve (p : promise string) : promise string :=
  match p with
  | Fulfilled response => Fulfilled (callback response)
  | _ => Pending
  end.

(** The earlier [lp_print]: the body is not in a [try], but an exception
    thrown in the executor of a promise rejects the promise all the same. *)
Definition lp_print (os : system) (options : PrintOptions) (σ : store)
    : outcome (promise string) :=
  let '(args, σ) :=
    match args options with
    | Some l => (l, σ)
    | None => let l := fresh (dom σ) in (l, <[l := []]> σ)
    end in
  let printer := printer options in
  let type :=
    JS.toLowerCase
      (match type options with
       | Some t => if JS.truthy t then t else "RAW"
       | None => "RAW"
       end) in
  let data := data options in
  let file := file options in
  let host :=
    match host options with
    | Some h =>
        if JS.truthy h
        then JS.join ":"
               (filter (fun w => JS.truthy w = true)
                  [h; if num_truthy (port options)
                      then JS.string_of_Z (default 0%Z (port options)) else ""])
        else ""
    | None => ""
    end in
  let username := username options in
  let encryption := default false (encryption options) in
  let title := title options in
  let quality := quality options in
  let orientation := orientation options in
  let copies := copies options in
  if negb (JS.truthy_opt printer)
  then mkOutcome σ [] (Rejected (Error "No printer provided"))
  else if negb (payload_truthy data) && negb (JS.truthy_opt file)
  then mkOutcome σ [] (Rejected (Error "No data or file provided"))
  else
    let σ := when (negb (JS.truthy_opt file)) (push args ["-o"; type]) σ in
    let σ := when (num_truthy copies) (push args ["-n"; JS.string_of_Z (default 0%Z copies)]) σ in
    let σ := when (JS.truthy_opt printer) (push args ["-d"; JS.str printer]) σ in
    let σ := when (JS.truthy host) (push args ["-h"; host]) σ in
    let σ := when (JS.truthy_opt username) (push args ["-U"; JS.str username]) σ in
    let σ := when (JS.truthy_opt title) (push args ["-T"; JS.str title]) σ in
    let σ := when (numstr_truthy quality)
               (push args ["-o"; "print-quality=" +:+ numstr_string quality]) σ in
    let σ := when (numstr_truthy orientation)
               (push args ["-o"; "orientation-requested=" +:+ numstr_string orientation]) σ in
    let σ := when encryption (push args ["-E"]) σ in
    if JS.truthy_opt file then
      let σ := push args ["--"; JS.str file] σ in
      mkOutcome σ [mkInvocation "lp" (spread args σ) None]
        (then_resolve (runCommand os "lp" (spread args σ)))
    else
      match data with
      | Some input =>
          if payload_truthy data then
            mkOutcome σ [mkInvocation "lp" (spread args σ) (Some input)]
              (then_resolve (runCommandPipe os "lp" input (spread args σ)))
          else mkOutcome σ [] (Rejected (Error "No data or file provided"))
      | None => mkOutcome σ [] (Rejected (Error "No data or file provided"))
      end.

(** The earlier [getPrinters]: one command, [lpstat -p -d], gives the
    listing. *)
Definition getPrinters (os : system) (this : Printer.t)
    : Printer.call (list PrinterDetails) :=
  if negb (Printer.printersLoaded this) then
    match runCommandSync os "lpstat" ["-p"; "-d"] with
    | inl printers =>
        let this := Printer.mk (extractPrinters printers) true (Printer.refreshInterval this) in
        Printer.mkCall this [mkInvocation "lpstat" ["-p"; "-d"] None] None
          (inl (Printer.printers this))
    | inr e => Printer.mkCall this [mkInvocation "lpstat" ["-p"; "-d"] None] None (inr e)
    end
  else
    Printer.mkCall this [mkInvocation "lpstat" ["-p"; "-d"] None]
      (Some [runCommand os "lpstat" ["-p"; "-d"]]) (inl (Printer.printers this)).

End Vovk.

(** * Definitions used in the statements *)

(** [t] occurs in [s] *)
Definition occurs (t s : string) : Prop := exists a b, s = a +:+ t +:+ b.

(** A header line: its first word is "printer". *)
Definition is_header (line : string) : bool :=
  bool_decide (JS.split " " line !! 0 = Some "printer").

(** The lines from the first header line on. *)
Fixpoint from_first_header (lines : list string) : list string :=
  match lines with
  | [] => []
  | line :: rest => if is_header line then lines else from_first_header rest
  end.

(** The type that the format flag carries. *)
Definition format (options : PrintOptions) : string :=
  JS.toLowerCase
    (match type options with
     | Some t => if JS.truthy t then t else "RAW"
     | None => "RAW"
     end).

(** The value of the host flag, or the empty string. *)
Definition host_port (options : PrintOptions) : string :=
  match host options with
  | Some h =>
      if JS.truthy h
      then JS.join ":"
             (filter (fun w => JS.truthy w = true)
                [h; if num_truthy (port options)
                    then JS.string_of_Z (default 0%Z (port options)) else ""])
      else ""
  | None => ""
  end.

(** The flags a valid request generates, in the order they are pushed. *)
Definition generated (options : PrintOptions) : list string :=
  (if negb (JS.truthy_opt (file options)) then ["-o"; format options] else [])
  ++ (if num_truthy (copies options)
      then ["-n"; JS.string_of_Z (default 0%Z (copies options))] else [])
  ++ (if JS.truthy_opt (printer options) then ["-d"; JS.str (printer options)] else [])
  ++ (if JS.truthy (host_port options) then ["-h"; host_port options] else [])
  ++ (if JS.truthy_opt (username options) then ["-U"; JS.str (username options)] else [])
  ++ (if JS.truthy_opt (title options) then ["-T"; JS.str (title options)] else [])
  ++ (if numstr_truthy (quality options)
      then ["-o"; "print-quality=" +:+ numstr_string (quality options)] else [])
  ++ (if numstr_truthy (orientation options)
      then ["-o"; "orientation-requested=" +:+ numstr_string (orientation options)] else [])
  ++ (if default false (encryption options) then ["-E"] else [])
  ++ (if JS.truthy_opt (file options) then ["--"; JS.str (file options)] else []).

(** The request passes the two checks at the head of [lp_print]. *)
Definition valid (options : PrintOptions) : bool :=
  JS.truthy_opt (printer options)
  && (payload_truthy (data options) || JS.truthy_opt (file options)).

(** The promise of [lp_print] for a valid request whose command line
    is [argv]. *)
Definition submitted (os : system) (options : PrintOptions) (argv : list string)
    : promise JS.number :=
  then_resolve
    (if JS.truthy_opt (file options) then runCommand os "lp" argv
     else match data options with
          | Some input => runCommandPipe os "lp" input argv
          | None => Pending
          end).

(** The process of a valid request whose command line is [argv]. *)
Definition submission (options : PrintOptions) (argv : list string) : invocation :=
  mkInvocation "lp" argv (if JS.truthy_opt (file options) then None else data options).

(** The request of the example: printer P1, data "hello", two copies. *)
Definition request_P1 : PrintOptions :=
  {| printer := Some "P1"; type := None; data := Some (Text "hello"); file := None;
     host := None; port := None; username := None; encryption := None;
     title := None; quality := None; orientation := None; copies := Some 2%Z;
     args := None |}.

(** The command fails for its caller: [spawn] throws, or the process
    closes with a code other than 0. *)
Definition fails (e : exit) : Prop :=
  match e with
  | Close code _ _ => code <> Some 0%Z
  | SpawnThrows _ => True
  end.

(** The array of extra arguments of the request, if it has one, is in
    the store: a reference always leads to an object. *)
Definition allocated (options : PrintOptions) (σ : store) : Prop :=
  forall l, args options = Some l -> is_Some (σ !! l).

(** [c] is one of the code units of [s]. *)
Fixpoint has_char (c : ascii) (s : string) : bool :=
  match s with
  | EmptyString => false
  | String a s' => Ascii.eqb c a || has_char c s'
  end.

(** What follows the last [c] of [s]; the whole of [s] when it has none. *)
Fixpoint after_last (c : ascii) (s : string) : string :=
  match s with
  | EmptyString => EmptyString
  | String a s' =>
      if has_char c s' then after_last c s'
      else if Ascii.eqb c a then s' else s
  end.

(** The words of a response: what is between its spaces, without the
    empty pieces. *)
Definition words (response : string) : list string :=
  filter (fun w => JS.truthy w = true) (JS.split " " response).

(** What [resolve] receives, as a value that is a number or a string. *)
Inductive value :=
  | VNumber (n : JS.number)
  | VString (s : string).


(** Every code unit of [s] is a decimal digit. *)
Fixpoint all_digits (s : string) : bool :=
  match s with
  | EmptyString => true
  | String c s' => JS.is_digit c && all_digits s'
  end.

(** The decimal digits of a number. *)
Definition decimal (n : N) : string := NilZero.string_of_uint (N.to_uint n).

(** The flags [printDirect] puts in the array before it calls [lp_print]. *)
Definition direct_flags (options : PrintDirectOptions) : list string :=
  (if JS.truthy_opt (d_type options) then ["-o"; JS.str (d_type options)] else [])
  ++ concat ((fun '(key, value) => ["-o"; key +:+ "=" +:+ value])
               <$> default [] (d_options options)).

(** The tabulation, code unit 9. *)
Definition TAB : string := String (ascii_of_nat 9) EmptyString.

(** What [lpstat] prints on a host with the one printer ZPL. *)
Definition lpstat_output (argv : list string) : string :=
  if decide (argv = ["-p"]) then
    "printer ZPL is idle.  enabled since Fri 09 Jun 2023" ++ JS.LF
  else if decide (argv = ["-a"]) then
    "ZPL accepting requests since Fri 09 Jun 2023" ++ JS.LF
  else if decide (argv = ["-s"]) then
    "system default destination: ZPL" ++ JS.LF
    ++ "device for ZPL: socket://192.168.1.40:9100" ++ JS.LF
  else if decide (argv = ["-d"]) then
    "system default destination: ZPL" ++ JS.LF
  else if decide (argv = ["-l"; "-p"]) then
    "printer ZPL is idle.  enabled since Fri 09 Jun 2023" ++ JS.LF
    ++ TAB ++ "Description: Toshiba Label Printer" ++ JS.LF
    ++ TAB ++ "Location: XT2" ++ JS.LF
  else "".

(** A host where CUPS runs and every command succeeds. *)
Definition cups_up : system :=
  {| spawnSync := fun inv => mkChild (Some 0%Z) (Some (lpstat_output (argv inv))) (Some "");
     spawn := fun inv =>
       if decide (command inv = "lp")
       then Close (Some 0%Z) ("request id is ZPL-92 (0 file(s))" ++ JS.LF) ""
       else Close (Some 0%Z) (lpstat_output (argv inv)) "" |}.

(** A host where the scheduler is down: every command exits with 1. *)
Definition cups_down : system :=
  {| spawnSync := fun _ => mkChild (Some 1%Z) (Some "") (Some "Unable to connect to server");
     spawn := fun _ => Close (Some 1%Z) "" "Unable to connect to server" |}.

(** A host where [lpstat] works and [lp] exits with 1. *)
Definition lp_down : system :=
  {| spawnSync := spawnSync cups_up;
     spawn := fun inv =>
       if decide (command inv = "lp")
       then Close (Some 1%Z) "" "lp: Error - The printer or class does not exist."
       else spawn cups_up inv |}.

(** A request for the printer ZPL. *)
Definition request_ZPL : PrintOptions :=
  {| printer := Some "ZPL"; type := None; data := Some (Text "^XA^XZ"); file := None;
     host := None; port := None; username := None; encryption := None;
     title := None; quality := None; orientation := None; copies := None;
     args := None |}.


(** A request with a caller-supplied array of extra arguments. *)
Definition request_extra : PrintOptions :=
  {| printer := Some "P1"; type := None; data := Some (Text "hello"); file := None;
     host := None; port := None; username := None; encryption := None;
     title := None; quality := None; orientation := None; copies := None;
     args := Some 1%positive |}.

Definition zpl_stats : LPSTAT_out :=
  mkStats (lpstat_output ["-p"]) (lpstat_output ["-a"]) (lpstat_output ["-s"])
    (lpstat_output ["-d"]) (lpstat_output ["-l"; "-p"]).

(** A loaded directory without a refresh timer. *)
Definition loaded_directory : Printer.t :=
  Printer.mk (extractPrinters zpl_stats) true None.

(** The value of the host flag: the host, followed by a colon and the
    port when the port is a number other than 0. *)
Definition host_value (h : string) (p : option Z) : string :=
  match p with
  | Some z => if (z =? 0)%Z then h else h +:+ ":" +:+ JS.string_of_Z z
  | None => h
  end.

(** The five commands of a snapshot, in the order they are started. *)
Definition lpstat_invocations : list invocation :=
  [ mkInvocation "lpstat" ["-p"] None; mkInvocation "lpstat" ["-a"] None;
    mkInvocation "lpstat" ["-s"] None; mkInvocation "lpstat" ["-d"] None;
    mkInvocation "lpstat" ["-l"; "-p"] None ].

(** The snapshot made of what [output] gives for the arguments of each
    of the five commands. *)
Definition snapshot (output : list string -> string) : LPSTAT_out :=
  mkStats (output ["-p"]) (output ["-a"]) (output ["-s"]) (output ["-d"])
    (output ["-l"; "-p"]).

(** Every code unit of [s] is the space. *)
Fixpoint all_spaces (s : string) : bool :=
  match s with
  | EmptyString => true
  | String c s' => Ascii.eqb c " " && all_spaces s'
  end.

(** The direct request has both callbacks, data and a printer. *)
Definition complete (options : PrintDirectOptions) : bool :=
  error options && success options && payload_truthy (d_data options)
  && JS.truthy_opt (d_printer options).

(** The request that [printDirect] hands to [lp_print], with the array
    it filled at [l]. *)
Definition direct_request (options : PrintDirectOptions) (l : loc) : PrintOptions :=
  mkPrintOptions (d_printer options) None (d_data options) None None None
    None None None None None None (Some l).

(** The process that the status query [key] starts. *)
Definition invocation_of (key : string) : invocation :=
  match lpstat_command key with
  | Some (cmd :: args) => mkInvocation cmd args None
  | _ => mkInvocation "" [] None
  end.

(** What a status command prints on a given system, for [spawnSync] and
    for [spawn]. *)
Definition sync_output (os : system) (args : list string) : string :=
  default "" (stdout (spawnSync os (mkInvocation "lpstat" args None))).

Definition async_output (os : system) (args : list string) : string :=
  match spawn os (mkInvocation "lpstat" args None) with
  | Close _ out _ => out
  | SpawnThrows _ => ""
  end.

(** A record reduced to what the earlier parser fills in: the name. *)
Definition name_only (r : PrinterDetails) : PrinterDetails :=
  {| name := name r; isDefault := false; options := ∅ |}.

(** The later job id that corresponds to an earlier promise. *)
Definition converted (p : promise string) : promise JS.number :=
  match p with
  | Pending => Pending
  | Fulfilled jobId => Fulfilled (JS.ToNumber (after_last "-" jobId))
  | Rejected e => Rejected e
  end.

(** A request for a printer of a remote server. *)
Definition request_host : PrintOptions :=
  {| printer := Some "P1"; type := Some "PDF"; data := Some (Text "hello"); file := None;
     host := Some "cups.local"; port := Some 631%Z; username := None; encryption := None;
     title := None; quality := None; orientation := None; copies := None;
     args := None |}.

(** A direct request with a type and one option. *)
Definition direct_ZPL : PrintDirectOptions :=
  {| d_data := Some (Text "^XA^XZ"); d_printer := Some "ZPL"; d_type := Some "RAW";
     d_options := Some [("media", "A4")]; success := true; error := true |}.

(** A store with one array. *)
Definition one_array : store := {[1%positive := ["-o"; "media=A4"]]}.

(** The specification's reading of the device address: the tokens of a
    line are its maximal runs of characters other than white space, and
    the address is the last token of the first line that contains the
    name followed by ": ". *)
Fixpoint whitespace_split (s : string) : list string :=
  match s with
  | EmptyString => [""]
  | String c s' =>
      if JS.is_space c then "" :: whitespace_split s'
      else match whitespace_split s' with
           | w :: r => String c w :: r
           | [] => [String c ""]
           end
  end.

Definition whitespace_tokens (s : string) : list string :=
  filter (fun w => JS.truthy w = true) (whitespace_split s).

Definition address_as_specified (stats : LPSTAT_out) (nm : string) : string :=
  match JS.find (JS.includes (nm +:+ ": ")) (JS.split JS.LF (addresses stats)) with
  | Some l => default "" (last (whitespace_tokens l))
  | None => ""
  end.

(** One printer whose address line holds a tabulation, and one whose
    address line ends with a space. *)
Definition tabbed_stats : LPSTAT_out :=
  mkStats "printer A is idle." "" ("device for A: ipp://a" +:+ TAB +:+ "b") "" "".

Definition open_ended_stats : LPSTAT_out :=
  mkStats "printer A is idle." "" "device for A: " "" "".

(** The direct request with only the presence of its callbacks. *)
Definition supplied (options : Callbacks.Options) : PrintDirectOptions :=
  mkPrintDirectOptions (Callbacks.data options) (Callbacks.printer options)
    (Callbacks.type options) (Callbacks.options options)
    (Callbacks.truthy (Callbacks.success options))
    (Callbacks.truthy (Callbacks.error options)).

(** The message of the first check that a direct request with an error
    callback fails. *)
Definition validation_error (options : PrintDirectOptions) : option string :=
  if negb (success options) then Some "No success callback provided"
  else if negb (payload_truthy (d_data options)) then Some "No data provided"
  else if negb (JS.truthy_opt (d_printer options)) then Some "No printer provided"
  else None.

(** How the call of a callback that receives [e] fails: it throws [e],
    or returns a promise that rejects with [e]. *)
Definition fails_with (c : Callbacks.completion) (e : exn) : Prop :=
  c = Callbacks.Raises e \/ c = Callbacks.ReturnsRejected e.

(** A direct request whose success callback throws what the error
    callback then throws again. *)
Definition direct_throwing : Callbacks.Options :=
  Callbacks.mkOptions (Some (Text "^XA^XZ")) (Some "ZPL") None None
    (Callbacks.Callable (fun _ => Callbacks.Raises (Error "success failed")))
    (Callbacks.Callable (fun e => Callbacks.Raises e)).

(** The promise of [lp_print] for a valid request that started the
    process [inv]. *)
Definition settled (os : system) (inv : invocation) : promise JS.number :=
  match spawn os inv with
  | Close code out err =>
      if decide (code = Some 0%Z) then Fulfilled (callback out) else Pending
  | SpawnThrows _ => Pending
  end.

(** * Properties *)

(** ** Strings *)

(** stdpp keeps [simpl] from unfolding string concatenation; the proofs
    below compute with it on constructors. *)
#[local] Arguments String.append !_ _ / : simpl nomatch.

Section Strings.

Implicit Types s t p n sep : string.

Lemma append_nil_r s : s +:+ "" = s.
Proof. induction s as [|c s IH]; simpl; congruence. Qed.

Lemma append_assoc s t u : (s +:+ t) +:+ u = s +:+ t +:+ u.
Proof. induction s as [|c s IH]; simpl; congruence. Qed.

Lemma startsWith_spec p s : JS.startsWith p s = true <-> exists r, s = p +:+ r.
Proof.
  revert s. induction p as [|a p IH]; intros s; simpl.
  - split; eauto.
  - destruct s as [|b s].
    + split; [discriminate | intros [r Hr]; discriminate].
    + destruct (Ascii.eqb_spec a b) as [->|Hab].
      * rewrite IH. split; intros [r Hr]; exists r; simpl in *; congruence.
      * split; [discriminate | intros [r Hr]; simpl in Hr; congruence].
Qed.

Lemma includes_spec n s : JS.includes n s = true <-> occurs n s.
Proof.
  induction s as [|c s IH].
  - cbn [JS.includes]. rewrite orb_false_r, startsWith_spec. split.
    + intros [r Hr]. exists "", r. exact Hr.
    + intros [[|? ?] [b Hb]]; [eauto | discriminate].
  - cbn [JS.includes]. rewrite orb_true_iff, startsWith_spec, IH. split.
    + intros [[r Hr] | [a [b Hab]]].
      * exists "", r. exact Hr.
      * exists (String c a), b. simpl. congruence.
    + intros [[|c' a] [b Hab]]; simpl in Hab.
      * left. eauto.
      * right. exists a, b. congruence.
Qed.

Lemma occurs_refl s : occurs s s.
Proof. exists "", "". simpl. now rewrite append_nil_r. Qed.

Lemma occurs_trans t u s : occurs t u -> occurs u s -> occurs t s.
Proof.
  intros (a & b & ->) (a' & b' & ->).
  exists (a' +:+ a), (b +:+ b'). now rewrite !append_assoc.
Qed.

Lemma occurs_app_l t u s : occurs (t +:+ u) s -> occurs t s.
Proof.
  intros (a & b & ->). exists a, (u +:+ b). now rewrite append_assoc.
Qed.

Lemma occurs_cons c t s : occurs t s -> occurs t (String c s).
Proof. intros (a & b & ->). now exists (String c a), b. Qed.

Lemma occurs_empty s : occurs "" s.
Proof. now exists "", s. Qed.

(** The pieces [split] returns are pieces of the text; the piece under
    construction starts the text while no separator is being dropped. *)
Lemma split_go_occurs sep s : forall skip,
  (skip = 0 -> exists r, s = fst (JS.split_go sep skip s) +:+ r) /\
  occurs (fst (JS.split_go sep skip s)) s /\
  Forall (fun x => occurs x s) (snd (JS.split_go sep skip s)).
Proof.
  induction s as [|c s IH]; intros skip.
  - simpl. repeat split; [exists ""; reflexivity | apply occurs_empty | constructor].
  - cbn [JS.split_go]. destruct skip as [|k].
    + destruct (JS.startsWith sep (String c s)).
      * destruct (IH (String.length sep - 1)) as (_ & H1 & H2).
        destruct (JS.split_go sep (String.length sep - 1) s) as [t r]. simpl in *.
        repeat split; [eexists; reflexivity | apply occurs_empty |].
        constructor; [now apply occurs_cons |].
        eapply Forall_impl; [exact H2 | intros; now apply occurs_cons].
      * destruct (IH 0) as (H0 & H1 & H2).
        destruct (JS.split_go sep 0 s) as [t r]. simpl in *.
        destruct (H0 eq_refl) as [r' Hr'].
        repeat split.
        -- intros _. exists r'. simpl. congruence.
        -- exists "", r'. simpl. congruence.
        -- eapply Forall_impl; [exact H2 | intros; now apply occurs_cons].
    + destruct (IH k) as (_ & H1 & H2).
      repeat split; [discriminate | now apply occurs_cons |].
      eapply Forall_impl; [exact H2 | intros; now apply occurs_cons].
Qed.

Lemma split_occurs sep s x : x ∈ JS.split sep s -> occurs x s.
Proof.
  unfold JS.split. destruct (split_go_occurs sep s 0) as (_ & H1 & H2).
  destruct (JS.split_go sep 0 s) as [t r]. simpl in *.
  intros [->|Hx]%elem_of_cons; [exact H1 |].
  rewrite Forall_forall in H2. now apply H2.
Qed.

Lemma split_length_pos sep s : 0 < length (JS.split sep s).
Proof. unfold JS.split. destruct (JS.split_go sep 0 s). simpl. lia. Qed.

Lemma find_Some {A} (f : A -> bool) (l : list A) x :
  JS.find f l = Some x ->
  exists pre post, l = pre ++ x :: post /\ f x = true /\ Forall (fun y => f y = false) pre.
Proof.
  induction l as [|y l IH]; simpl; [discriminate |].
  destruct (f y) eqn:Hy.
  - intros [= ->]. exists [], l. repeat split; auto.
  - intros (pre & post & -> & Hx & Hpre)%IH.
    exists (y :: pre), post. repeat split; auto.
Qed.

Lemma find_None {A} (f : A -> bool) (l : list A) :
  JS.find f l = None <-> Forall (fun y => f y = false) l.
Proof.
  induction l as [|y l IH]; simpl.
  - split; [constructor | reflexivity].
  - destruct (f y) eqn:Hy.
    + split; [discriminate | intros H; inversion H; congruence].
    + rewrite IH. split; [now constructor | intros H; now inversion H].
Qed.

End Strings.

(** ** The printer-status parser *)

Section Extractor.

Variable stats : LPSTAT_out.

Lemma extract_line_header st line :
  is_header line = true ->
  extract_line stats st line =
    (Some (header_record stats (JS.split " " line !! 1)),
     snd st ++ [header_record stats (JS.split " " line !! 1)]).
Proof.
  unfold is_header, extract_line. intros H%bool_decide_eq_true.
  destruct st as [cur res]. now rewrite decide_True by exact H.
Qed.

Lemma extract_line_other st line :
  is_header line = false ->
  extract_line stats st line =
    (fst st, match fst st with Some p => snd st ++ [p] | None => snd st end).
Proof.
  unfold is_header, extract_line. intros H%bool_decide_eq_false.
  destruct st as [cur res]. rewrite decide_False by exact H.
  now destruct cur.
Qed.

(** Once a printer is current, every line adds a record. *)
Lemma extract_fold_length lines : forall p res,
  length (snd (fold_left (extract_line stats) lines (Some p, res)))
  = length res + length lines.
Proof.
  induction lines as [|line lines IH]; intros p res; cbn [fold_left length]; [simpl; lia |].
  destruct (is_header line) eqn:Hh.
  - rewrite extract_line_header by exact Hh. rewrite IH, length_app. simpl. lia.
  - rewrite extract_line_other by exact Hh. cbn [fst snd].
    rewrite IH, length_app. simpl. lia.
Qed.

Lemma extract_fold_from_first lines :
  length (snd (fold_left (extract_line stats) lines (None, [])))
  = length (from_first_header lines).
Proof.
  induction lines as [|line lines IH]; [reflexivity |].
  cbn [fold_left from_first_header]. destruct (is_header line) eqn:Hh.
  - rewrite extract_line_header by exact Hh. now rewrite extract_fold_length.
  - rewrite extract_line_other by exact Hh. exact IH.
Qed.

(** The parser returns one record for every line of the listing from the
    first header line on, header or not. *)
Lemma extractPrinters_length :
  length (extractPrinters stats)
  = length (from_first_header (JS.split JS.LF (printers stats))).
Proof. apply extract_fold_from_first. Qed.

(** Every record is the one built for the name on a header line. *)
Lemma extract_fold_inv (P : PrinterDetails -> Prop) lines : forall st,
  (forall line, line ∈ lines -> is_header line = true ->
     P (header_record stats (JS.split " " line !! 1))) ->
  (forall p, fst st = Some p -> P p) -> Forall P (snd st) ->
  Forall P (snd (fold_left (extract_line stats) lines st)).
Proof.
  induction lines as [|line lines IH]; intros st Hl Hc Hr; [exact Hr |].
  cbn [fold_left]. apply IH.
  - intros l Hin. apply Hl. now right.
  - destruct (is_header line) eqn:Hh.
    + rewrite extract_line_header by exact Hh. simpl. intros p [= <-].
      apply Hl; [left | exact Hh].
    + rewrite extract_line_other by exact Hh. exact Hc.
  - destruct (is_header line) eqn:Hh.
    + rewrite extract_line_header by exact Hh. simpl.
      apply Forall_app. split; [exact Hr |]. repeat constructor.
      apply Hl; [left | exact Hh].
    + rewrite extract_line_other by exact Hh. simpl.
      destruct (fst st) as [p|] eqn:Hp; [| exact Hr].
      apply Forall_app. split; [exact Hr |]. repeat constructor. now apply Hc.
Qed.

Lemma extractPrinters_records r :
  r ∈ extractPrinters stats ->
  exists line, line ∈ JS.split JS.LF (printers stats) /\ is_header line = true /\
               r = header_record stats (JS.split " " line !! 1).
Proof.
  unfold extractPrinters. revert r. apply Forall_forall.
  apply extract_fold_inv; simpl; [eauto | discriminate | constructor].
Qed.

Lemma extractPrinters_header_record r :
  r ∈ extractPrinters stats -> r = header_record stats (name r).
Proof. intros (line & _ & _ & ->)%extractPrinters_records. reflexivity. Qed.

End Extractor.

Section Extractor_options.

Variable stats : LPSTAT_out.

Lemma find_absent n suffix text (l : list string) :
  JS.includes n text = false ->
  (forall x, x ∈ l -> occurs x text) ->
  JS.find (JS.includes (n +:+ suffix)) l = None.
Proof.
  intros Hn Hl. apply find_None, Forall_forall. intros x Hx.
  destruct (JS.includes (n +:+ suffix) x) eqn:E; [| reflexivity].
  apply includes_spec in E. exfalso.
  assert (occurs n text) as H.
  { eapply occurs_trans; [eapply occurs_app_l; exact E | now apply Hl]. }
  apply includes_spec in H. congruence.
Qed.

Lemma includes_truthy n suffix c x :
  JS.includes (n +:+ String c suffix) x = true -> JS.truthy x = true.
Proof.
  intros (a & b & ->)%includes_spec.
  destruct a; [destruct n |]; reflexivity.
Qed.

(** Only the two keys of [lpstat_detail_ki] are ever set from a block. *)
Lemma detail_info_other block k :
  k <> "printer-info" -> k <> "printer-location" -> detail_info block !! k = None.
Proof.
  intros H1 H2. unfold detail_info, lpstat_detail_ki. cbn [fold_left].
  repeat match goal with
         | |- context [JS.find ?f ?l] => destruct (JS.find f l)
         | |- context [JS.truthy ?r] => destruct (JS.truthy r)
         end; now simplify_map_eq.
Qed.

Lemma header_record_lookup nm k :
  k <> "printer-info" -> k <> "printer-location" ->
  options (header_record stats nm) !! k =
  (<["device-uri" :=
       match JS.find (JS.includes (JS.str nm +:+ ": ")) (JS.split JS.LF (addresses stats)) with
       | Some l => JS.at_index (JS.split " " l) (length (JS.split " " l) - 1)
       | None => ""
       end]>
     {["printer-is-accepting-jobs" :=
         if JS.truthy_opt (JS.find (JS.includes (JS.str nm +:+ " accepting"))
                             (JS.split JS.LF (accepting stats)))
         then "true" else "false"]} : gmap string string) !! k.
Proof.
  intros H1 H2. unfold header_record. cbn [options].
  rewrite lookup_union_r.
  - destruct (JS.find _ (JS.split JS.LF (addresses stats))) as [l|] eqn:E; [| reflexivity].
    apply find_Some in E as (_ & _ & _ & E & _).
    now rewrite (includes_truthy _ _ _ _ E).
  - destruct (JS.find _ (filter _ _)) as [b|]; [| apply lookup_empty].
    destruct (JS.truthy b); [now apply detail_info_other | apply lookup_empty].
Qed.

End Extractor_options.

Lemma extractPrinters_empty stats :
  printers stats = "" -> extractPrinters stats = [].
Proof. unfold extractPrinters. now intros ->. Qed.

(** C1 (evaluation at the failing input).  The listing that [lpstat -p]
    prints for the single printer A, one header line ended by a line
    feed, has exactly one line whose first word is "printer"; the parser
    returns two records for it, both for A, because the empty last line
    repeats the current record. *)
Theorem extractPrinters_trailing_line_repeats acc addr def det :
  let stats := mkStats ("printer A is idle." ++ JS.LF) acc addr def det in
  length (filter (fun l => is_header l = true) (JS.split JS.LF (printers stats))) = 1
  /\ name <$> extractPrinters stats = [Some "A"; Some "A"].
Proof. split; reflexivity. Qed.

(** C7.  Every record the parser returns maps "printer-is-accepting-jobs"
    to "true" or "false" and "device-uri" to a string; when the name of
    the record occurs in none of the addresses, accepting and details
    texts, "device-uri" is the empty string, "printer-is-accepting-jobs"
    is "false", and the options hold no other key. *)
Theorem extractPrinters_options stats r :
  r ∈ extractPrinters stats ->
  (exists a u,
      options r !! "printer-is-accepting-jobs" = Some a /\ (a = "true" \/ a = "false")
      /\ options r !! "device-uri" = Some u)
  /\ (JS.includes (JS.str (name r)) (addresses stats) = false ->
      JS.includes (JS.str (name r)) (accepting stats) = false ->
      JS.includes (JS.str (name r)) (details stats) = false ->
      options r !! "device-uri" = Some ""
      /\ options r !! "printer-is-accepting-jobs" = Some "false"
      /\ forall k, k <> "device-uri" -> k <> "printer-is-accepting-jobs" ->
                   options r !! k = None).
Proof.
  intros Hr. rewrite (extractPrinters_header_record _ _ Hr).
  set (nm := name r). cbn [name]. split.
  - eexists _, _. rewrite !header_record_lookup by discriminate.
    rewrite lookup_insert_ne, lookup_singleton_eq, lookup_insert_eq by discriminate.
    split; [reflexivity |]. split; [| reflexivity].
    destruct (JS.truthy_opt _); auto.
  - intros Ha Hc Hd.
    assert (JS.find (JS.includes (JS.str nm +:+ ": ")) (JS.split JS.LF (addresses stats)) = None)
      as E1 by (eapply find_absent; [exact Ha | apply split_occurs]).
    assert (JS.find (JS.includes (JS.str nm +:+ " accepting")) (JS.split JS.LF (accepting stats)) = None)
      as E2 by (eapply find_absent; [exact Hc | apply split_occurs]).
    assert (JS.find (JS.includes (JS.str nm +:+ " "))
              (filter (fun b => JS.truthy b = true)
                 (JS.split (JS.LF +:+ "printer") (details stats))) = None) as E3.
    { eapply find_absent; [exact Hd |].
      intros x [_ Hx]%list_elem_of_filter. now apply split_occurs in Hx. }
    unfold header_record. cbn [options]. rewrite E1, E2, E3. cbn [JS.truthy_opt].
    rewrite (left_id_L ∅ (∪)).
    split; [apply lookup_insert_eq |].
    split; [now rewrite lookup_insert_ne, lookup_singleton_eq by discriminate |].
    intros k H1 H2. now rewrite lookup_insert_ne, lookup_singleton_ne.
Qed.

(** C9 (as amended).  For every record the parser returns: the device
    address is the last of the pieces that splitting on the space
    character cuts out of the first line of the addresses text that
    contains the name followed by ": " (the empty piece after a final
    space included), and the empty string when no line contains it; the
    accepting flag is "true" exactly when
    some line of the accepting text contains the name followed by
    " accepting", and "false" otherwise. *)
Theorem extractPrinters_address_and_accepting stats r :
  r ∈ extractPrinters stats ->
  let n := JS.str (name r) in
  (forall pre l post,
      JS.split JS.LF (addresses stats) = pre ++ l :: post ->
      occurs (n +:+ ": ") l ->
      (forall l', l' ∈ pre -> ~ occurs (n +:+ ": ") l') ->
      exists words word,
        JS.split " " l = words ++ [word] /\ options r !! "device-uri" = Some word)
  /\ ((forall l, l ∈ JS.split JS.LF (addresses stats) -> ~ occurs (n +:+ ": ") l) ->
      options r !! "device-uri" = Some "")
  /\ (options r !! "printer-is-accepting-jobs" = Some "true" <->
      exists l, l ∈ JS.split JS.LF (accepting stats) /\ occurs (n +:+ " accepting") l)
  /\ (options r !! "printer-is-accepting-jobs" = Some "false" <->
      forall l, l ∈ JS.split JS.LF (accepting stats) -> ~ occurs (n +:+ " accepting") l).
Proof.
  intros Hr n. rewrite (extractPrinters_header_record _ _ Hr). fold n.
  rewrite !header_record_lookup by discriminate. fold n.
  rewrite lookup_insert_eq, lookup_insert_ne, lookup_singleton_eq by discriminate.
  set (fa := JS.find (JS.includes (n +:+ " accepting")) (JS.split JS.LF (accepting stats))).
  assert (JS.truthy_opt fa = true <->
          exists l, l ∈ JS.split JS.LF (accepting stats) /\ occurs (n +:+ " accepting") l) as Hacc.
  { subst fa. destruct (JS.find _ _) as [l|] eqn:E.
    - apply find_Some in E as (pre & post & Hl & E & _). cbn [JS.truthy_opt].
      rewrite (includes_truthy _ _ _ _ E). split; [intros _ | reflexivity].
      exists l. split; [rewrite Hl; apply elem_of_app; right; left | now apply includes_spec].
    - apply find_None in E. rewrite Forall_forall in E. split; [discriminate |].
      intros (l & Hl & Ho%includes_spec). rewrite (E l Hl) in Ho. discriminate. }
  repeat split.
  - intros pre l post Hsplit Ho Hpre.
    assert (JS.find (JS.includes (n +:+ ": ")) (JS.split JS.LF (addresses stats)) = Some l) as ->.
    { rewrite Hsplit. clear Hsplit. induction pre as [|y pre IH]; simpl.
      - apply includes_spec in Ho. now rewrite Ho.
      - destruct (JS.includes (n +:+ ": ") y) eqn:E.
        + exfalso. apply (Hpre y); [left | now apply includes_spec].
        + apply IH. intros l' Hl'. apply Hpre. now right. }
    destruct (JS.split " " l) as [|w ws] eqn:Es using rev_ind.
    + pose proof (split_length_pos " " l) as Hp. rewrite Es in Hp. simpl in Hp. lia.
    + exists ws, w. split; [reflexivity |]. f_equal. unfold JS.at_index.
      rewrite length_app. simpl. replace (length ws + 1 - 1) with (length ws) by lia.
      now rewrite list_lookup_middle.
  - intros Hno.
    assert (JS.find (JS.includes (n +:+ ": ")) (JS.split JS.LF (addresses stats)) = None) as ->;
      [| reflexivity].
    apply find_None, Forall_forall. intros x Hx.
    destruct (JS.includes (n +:+ ": ") x) eqn:E; [| reflexivity].
    exfalso. apply (Hno x Hx). now apply includes_spec.
  - intros H. destruct (JS.truthy_opt fa); [| discriminate]. now apply Hacc.
  - intros H%Hacc. now rewrite H.
  - intros H l Hl Ho.
    assert (JS.truthy_opt fa = true) as Ht by (apply Hacc; eauto).
    rewrite Ht in H. discriminate.
  - intros H. destruct (JS.truthy_opt fa); [| reflexivity].
    destruct Hacc as [Hx _]. destruct (Hx eq_refl) as (l & Hl & Ho).
    exfalso. eapply H; eauto.
Qed.

(** ** The job-submission translator *)

Section Translator.

Variable os : system.

Lemma push_insert l xs ys (σ : store) :
  push l ys (<[l := xs]> σ) = <[l := xs ++ ys]> σ.
Proof.
  unfold push. apply map_eq. intros i. rewrite lookup_alter.
  destruct (decide (l = i)) as [->|Hne].
  - now rewrite !lookup_insert_eq.
  - now rewrite !lookup_insert_ne.
Qed.

Lemma when_push l c xs ys (σ : store) :
  when c (push l ys) (<[l := xs]> σ) = <[l := xs ++ (if c then ys else [])]> σ.
Proof.
  destruct c; simpl; [apply push_insert | now rewrite app_nil_r].
Qed.

Lemma spread_insert l xs (σ : store) : spread l (<[l := xs]> σ) = xs.
Proof. unfold spread. now rewrite lookup_insert_eq. Qed.

Ltac run_pushes Hv :=
  let Hp := fresh "Hp" in
  let Hd := fresh "Hd" in
  let Hf := fresh "Hf" in
  unfold valid, generated, submitted, submission in *;
  apply andb_true_iff in Hv as [Hp Hd];
  cbv zeta; rewrite Hp; cbn [negb];
  rewrite !when_push;
  destruct (JS.truthy_opt (file _)) eqn:Hf;
  [ rewrite andb_false_r, push_insert, !spread_insert;
    cbn [negb]; rewrite <- !(assoc_L (++))
  | rewrite orb_false_r in Hd; rewrite Hd; cbn [negb andb];
    destruct (data _) as [?|]; [| discriminate];
    rewrite !spread_insert; rewrite <- !(assoc_L (++)); rewrite !app_nil_r ].

(** A valid request with an array of extra arguments: the array ends up
    holding what it held followed by the generated flags, and that is the
    command line of the one process started. *)
Lemma lp_print_args options l xs (σ : store) :
  args options = Some l -> σ !! l = Some xs -> valid options = true ->
  lp_print os options σ =
    mkOutcome (<[l := xs ++ generated options]> σ)
      [submission options (xs ++ generated options)]
      (submitted os options (xs ++ generated options)).
Proof.
  intros Ha Hl Hv. unfold lp_print. rewrite Ha.
  rewrite <- (insert_id σ l xs Hl).
  run_pushes Hv; now rewrite insert_insert_eq.
Qed.

(** A valid request without extra arguments: a new array is allocated. *)
Lemma lp_print_no_args options (σ : store) :
  args options = None -> valid options = true ->
  lp_print os options σ =
    mkOutcome (<[fresh (dom σ) := generated options]> σ)
      [submission options (generated options)]
      (submitted os options (generated options)).
Proof.
  intros Ha Hv. unfold lp_print. rewrite Ha.
  run_pushes Hv; reflexivity.
Qed.

(** An invalid request: nothing is pushed and nothing is started. *)
Lemma lp_print_invalid options (σ : store) :
  valid options = false ->
  exists σ' e,
    lp_print os options σ = mkOutcome σ' [] (Rejected (Error e))
    /\ (forall l, is_Some (σ !! l) -> σ' !! l = σ !! l)
    /\ e = (if JS.truthy_opt (printer options)
            then "No data or file provided" else "No printer provided").
Proof.
  unfold valid, lp_print. intros Hv.
  destruct (args options) as [l|].
  - exists σ. destruct (JS.truthy_opt (printer options)); simpl in *.
    + apply orb_false_iff in Hv as [-> ->]. simpl. eauto.
    + eauto.
  - exists (<[fresh (dom σ) := []]> σ).
    assert (forall l, is_Some (σ !! l) -> (<[fresh (dom σ) := []]> σ) !! l = σ !! l) as Hfr.
    { intros l Hl. apply lookup_insert_ne. intros <-.
      apply (is_fresh (dom σ)). now apply elem_of_dom. }
    destruct (JS.truthy_opt (printer options)); simpl in *.
    + apply orb_false_iff in Hv as [-> ->]. simpl. eauto.
    + eauto.
Qed.

(** C10.  With a caller-supplied array of extra arguments at [l] holding
    [xs], a valid request leaves at [l] the same array, now holding [xs]
    followed by every generated flag, and no other array is changed; the
    command line of the process started is that array: [xs] first, then
    the format, copies and destination-printer flags and the rest. *)
Theorem lp_print_appends_to_caller_array options l xs (σ : store) :
  args options = Some l -> σ !! l = Some xs -> valid options = true ->
  let o := lp_print os options σ in
  heap o !! l = Some (xs ++ generated options)
  /\ (forall l', l' <> l -> heap o !! l' = σ !! l')
  /\ (exists inv, spawned o = [inv] /\ command inv = "lp"
                  /\ argv inv = xs ++ generated options)
  /\ (exists rest,
        generated options =
          (if negb (JS.truthy_opt (file options)) then ["-o"; format options] else [])
          ++ (if num_truthy (copies options)
              then ["-n"; JS.string_of_Z (default 0%Z (copies options))] else [])
          ++ ("-d" :: JS.str (printer options) :: rest)).
Proof.
  intros Ha Hl Hv o. subst o. rewrite (lp_print_args _ _ _ _ Ha Hl Hv). cbn [heap spawned].
  split; [apply lookup_insert_eq |].
  split; [intros l' Hne; now apply lookup_insert_ne |].
  split; [eexists; repeat split |].
  unfold generated, valid in *. apply andb_true_iff in Hv as [-> _].
  eexists. reflexivity.
Qed.

(** C5.  For the request with printer P1, data "hello" and two copies,
    one [lp] process is started; its arguments are -o raw, -n 2, -d P1
    in this order, and nothing else: no host, user, title or encryption
    flag and no print-quality or orientation-requested option. *)
Theorem lp_print_request_P1 (σ : store) :
  exists inv,
    spawned (lp_print os request_P1 σ) = [inv]
    /\ command inv = "lp"
    /\ argv inv = ["-o"; "raw"; "-n"; "2"; "-d"; "P1"]
    /\ stdin inv = Some (Text "hello")
    /\ Forall (fun a => (a ∉ ["-h"; "-U"; "-T"; "-E"])
                        /\ JS.startsWith "print-quality=" a = false
                        /\ JS.startsWith "orientation-requested=" a = false)
         (argv inv).
Proof.
  rewrite (lp_print_no_args request_P1 σ eq_refl eq_refl). cbn [spawned].
  exists (mkInvocation "lp" ["-o"; "raw"; "-n"; "2"; "-d"; "P1"] (Some (Text "hello"))).
  cbn [command argv stdin]. repeat (split; [reflexivity |]).
  refine (bool_decide_unpack _ _). vm_compute. exact I.
Qed.

Lemma runCommand_fails cmd argv :
  fails (spawn os (mkInvocation cmd argv None)) ->
  exists text, runCommand os cmd argv = Rejected (Reason text).
Proof.
  unfold runCommand, fails. destruct (spawn os _) as [code out err|err]; intros H.
  - rewrite decide_False by exact H. eauto.
  - eauto.
Qed.

Lemma runCommandPipe_fails cmd input argv :
  fails (spawn os (mkInvocation cmd argv (Some input))) ->
  exists text, runCommandPipe os cmd input argv = Rejected (Reason text).
Proof.
  unfold runCommandPipe, fails. destruct (spawn os _) as [code out err|err]; intros H.
  - rewrite decide_False by exact H. eauto.
  - eauto.
Qed.

(** A valid request starts exactly one process, [submission], and returns
    the promise [submitted]. *)
Lemma lp_print_valid options (σ : store) :
  allocated options σ -> valid options = true ->
  exists xs σ',
    lp_print os options σ
    = mkOutcome σ' [submission options (xs ++ generated options)]
        (submitted os options (xs ++ generated options)).
Proof.
  intros Hal Hv. destruct (args options) as [l|] eqn:Ha.
  - destruct (Hal l Ha) as [xs Hl].
    rewrite (lp_print_args options l xs σ Ha Hl Hv). eauto.
  - rewrite (lp_print_no_args options σ Ha Hv). exists []. eexists. reflexivity.
Qed.


(** C2 (what the code does instead).  For a request that passes
    validation, when every [lp] process fails, the runner's promise is
    rejected with the text of the failure, but the promise [lp_print]
    returns stays pending: it is never rejected. *)
Theorem lp_print_failure_never_rejects options (σ : store) :
  allocated options σ ->
  valid options = true ->
  (forall inv, command inv = "lp" -> fails (spawn os inv)) ->
  returned (lp_print os options σ) = Pending
  /\ exists inv text,
       spawned (lp_print os options σ) = [inv]
       /\ (match stdin inv with
           | Some input => runCommandPipe os "lp" input (argv inv)
           | None => runCommand os "lp" (argv inv)
           end) = Rejected (Reason text).
Proof.
  intros Hal Hv Hfail.
  destruct (lp_print_valid options σ Hal Hv) as (xs & σ' & ->).
  set (argv := xs ++ generated options).
  cbn [returned spawned]. unfold submitted, submission.
  apply andb_true_iff in Hv as [_ Hd].
  destruct (JS.truthy_opt (file options)) eqn:Hf.
  - destruct (runCommand_fails "lp" argv) as [text Ht]; [now apply Hfail |].
    rewrite Ht. split; [reflexivity |]. eexists _, text. split; [reflexivity |]. exact Ht.
  - rewrite orb_false_r in Hd.
    destruct (data options) as [input|]; [| discriminate].
    destruct (runCommandPipe_fails "lp" input argv) as [text Ht]; [now apply Hfail |].
    rewrite Ht. split; [reflexivity |]. eexists _, text. split; [reflexivity |]. exact Ht.
Qed.


End Translator.

(** ** The job id *)

Section JobId.

Lemma after_last_none c s : has_char c s = false -> after_last c s = s.
Proof.
  destruct s as [|a s]; [reflexivity |]. simpl.
  now intros [-> ->]%orb_false_iff.
Qed.

Lemma has_char_app c s t : has_char c (s +:+ t) = has_char c s || has_char c t.
Proof.
  induction s as [|a s IH]; simpl; [reflexivity |]. now rewrite IH, orb_assoc.
Qed.

Lemma after_last_app c pre suf :
  has_char c suf = false -> after_last c (pre +:+ String c suf) = suf.
Proof.
  intros Hs. induction pre as [|a pre IH]; simpl.
  - now rewrite Hs, Ascii.eqb_refl.
  - rewrite has_char_app. simpl. now rewrite Ascii.eqb_refl, orb_true_r.
Qed.

(** The last element of [s.split(c)] for a single code unit [c]. *)
Lemma split_go_last c s :
  let '(t, r) := JS.split_go (String c "") 0 s in
  if has_char c s then last r = Some (after_last c s)
  else t = s /\ r = [].
Proof.
  induction s as [|a s IH]; [simpl; auto |].
  cbn [JS.split_go JS.startsWith has_char after_last String.length Nat.sub].
  destruct (JS.split_go (String c "") 0 s) as [t r].
  destruct (Ascii.eqb c a) eqn:Hca; cbn [orb].
  - destruct (has_char c s).
    + destruct r as [|x r]; [discriminate |]. exact IH.
    + destruct IH as [-> ->]. reflexivity.
  - destruct (has_char c s).
    + exact IH.
    + destruct IH as [-> ->]. auto.
Qed.

Lemma split_last c s :
  JS.at_index (JS.split (String c "") s) (length (JS.split (String c "") s) - 1)
  = after_last c s.
Proof.
  unfold JS.at_index, JS.split. pose proof (split_go_last c s) as H.
  destruct (JS.split_go (String c "") 0 s) as [t r].
  replace (length (t :: r) - 1) with (pred (length (t :: r))) by (simpl; lia).
  rewrite <- last_lookup.
  destruct (has_char c s) eqn:Hc.
  - destruct r as [|x r]; [discriminate |].
    change (last (t :: x :: r)) with (last (x :: r)). now rewrite H.
  - destruct H as [-> ->]. simpl. now rewrite after_last_none.
Qed.



(** *** The confirmation line of [lp] *)

Lemma digit_cases c :
  JS.is_digit c = true ->
  c ∈ ["0"; "1"; "2"; "3"; "4"; "5"; "6"; "7"; "8"; "9"]%char.
Proof.
  destruct c as [[] [] [] [] [] [] [] []]; intros H; vm_compute in H;
    try discriminate H; rewrite !elem_of_cons; auto 20.
Qed.

Ltac digit_cases c H :=
  apply digit_cases in H; rewrite !elem_of_cons, elem_of_nil in H;
  decompose [or] H; try contradiction; subst c.

Lemma all_digits_uint d : all_digits (NilEmpty.string_of_uint d) = true.
Proof. induction d; simpl; auto. Qed.

Lemma decimal_digits n :
  all_digits (decimal n) = true /\ JS.truthy (decimal n) = true
  /\ JS.digits_value (decimal n) = n.
Proof.
  unfold decimal, JS.digits_value. pose proof (Unsigned.of_to n) as Hn.
  destruct (N.to_uint n) as [|d|d|d|d|d|d|d|d|d|d] eqn:E;
    cbn [NilZero.string_of_uint];
    try (rewrite NilEmpty.usu, all_digits_uint; repeat split; exact Hn).
  repeat split. exact Hn.
Qed.

Lemma all_digits_no_char c s :
  JS.is_digit c = false -> all_digits s = true -> has_char c s = false.
Proof.
  intros Hc. induction s as [|a s IH]; [reflexivity |]. simpl.
  intros [Ha Hs]%andb_true_iff. rewrite (IH Hs), orb_false_r.
  destruct (Ascii.eqb_spec c a) as [->|]; congruence.
Qed.

Lemma span_all_digits s : all_digits s = true -> JS.span_digits s = (s, "").
Proof.
  induction s as [|c s IH]; [reflexivity |]. simpl.
  intros [-> Hs]%andb_true_iff. now rewrite (IH Hs).
Qed.

Lemma trimEnd_digits s : all_digits s = true -> JS.trimEnd s = s.
Proof.
  induction s as [|c s IH]; [reflexivity |]. simpl.
  intros [Hc Hs]%andb_true_iff. rewrite (IH Hs).
  digit_cases c Hc; reflexivity.
Qed.

(** A non-empty string of decimal digits converts to its value. *)
Lemma ToNumber_digits s :
  all_digits s = true -> JS.truthy s = true ->
  JS.ToNumber s = JS.Int (JS.digits_value s).
Proof.
  intros Hd Ht. unfold JS.ToNumber, JS.trim.
  assert (JS.trimStart s = s) as ->.
  { destruct s as [|c s]; [reflexivity |]. simpl in *.
    apply andb_true_iff in Hd as [Hc _]. digit_cases c Hc; reflexivity. }
  rewrite (trimEnd_digits s Hd).
  assert (JS.unsigned_decimal false s = JS.Int (JS.digits_value s)) as Hun.
  { unfold JS.unsigned_decimal. rewrite (span_all_digits s Hd), Ht.
    assert (String.eqb s "Infinity" = false) as ->.
    { destruct s as [|c s]; [reflexivity |]. simpl in Hd.
      apply andb_true_iff in Hd as [Hc _]. digit_cases c Hc; reflexivity. }
    cbn. now rewrite append_nil_r. }
  assert (JS.non_decimal s = None) as Hnd.
  { destruct s as [|c [|p [|c2 r]]]; try reflexivity; simpl in Hd.
    - apply andb_true_iff in Hd as [Hc _]. digit_cases c Hc; reflexivity.
    - apply andb_true_iff in Hd as [Hc Hd]. apply andb_true_iff in Hd as [Hp _].
      digit_cases c Hc; try reflexivity; digit_cases p Hp; reflexivity.
    - apply andb_true_iff in Hd as [Hc Hd]. apply andb_true_iff in Hd as [Hp _].
      digit_cases c Hc; try reflexivity; digit_cases p Hp; reflexivity. }
  destruct s as [|c s]; [discriminate |]. rewrite Hnd, Hun.
  simpl in Hd. apply andb_true_iff in Hd as [Hc _]. digit_cases c Hc; reflexivity.
Qed.

Lemma split_no_sep c s :
  has_char c s = false -> JS.split (String c "") s = [s].
Proof.
  intros H. unfold JS.split. pose proof (split_go_last c s) as Hs.
  destruct (JS.split_go (String c "") 0 s) as [t r]. rewrite H in Hs.
  now destruct Hs as [-> ->].
Qed.

Lemma split_app c a b :
  has_char c a = false ->
  JS.split (String c "") (a +:+ String c b) = a :: JS.split (String c "") b.
Proof.
  unfold JS.split. induction a as [|x a IH]; intros H.
  - cbn [String.append JS.split_go JS.startsWith String.length Nat.sub].
    rewrite Ascii.eqb_refl. now destruct (JS.split_go (String c "") 0 b).
  - simpl in H. apply orb_false_iff in H as [Hx Ha]. specialize (IH Ha).
    cbn [String.append JS.split_go JS.startsWith]. rewrite Hx.
    destruct (JS.split_go (String c "") 0 (a +:+ String c b)) as [t r].
    destruct (JS.split_go (String c "") 0 b) as [t' r'].
    now injection IH as -> ->.
Qed.

(** X12.  The line [lp] prints for job [n] on destination [dest], a name
    without spaces, after it took [k] files: the job id is [n], for [n]
    up to 2^53.  Up to that bound every integer is a double, so the
    exact value of the digits is the number the conversion gives; past
    it the conversion rounds, which [JS.ToNumber] does not follow. *)
Lemma callback_confirmation dest n k :
  has_char " " dest = false ->
  (n <= 2 ^ 53)%N ->
  callback ("request id is " +:+ dest +:+ "-" +:+ decimal n
            +:+ " (" +:+ decimal k +:+ " file(s))" +:+ JS.LF)
  = JS.Int n.
Proof.
  intros Hdest _.
  destruct (decimal_digits n) as (Hn1 & Hn2 & Hn3).
  destruct (decimal_digits k) as (Hk1 & Hk2 & Hk3).
  set (tok := dest +:+ "-" +:+ decimal n).
  assert (has_char " " tok = false) as Htok.
  { subst tok. rewrite has_char_app, Hdest. simpl.
    now apply all_digits_no_char. }
  assert (JS.truthy tok = true) as Htt by (subst tok; now destruct dest).
  assert (JS.split " " ("request id is " +:+ dest +:+ "-" +:+ decimal n
                        +:+ " (" +:+ decimal k +:+ " file(s))" +:+ JS.LF)
          = ["request"; "id"; "is"; tok; "(" +:+ decimal k; "file(s))" +:+ JS.LF]) as Hsplit.
  { change ("request id is " +:+ dest +:+ "-" +:+ decimal n
            +:+ " (" +:+ decimal k +:+ " file(s))" +:+ JS.LF)
      with ("request" +:+ String " " ("id" +:+ String " " ("is" +:+ String " "
              (dest +:+ "-" +:+ decimal n +:+ " (" +:+ decimal k +:+ " file(s))" +:+ JS.LF)))).
    rewrite !split_app by reflexivity.
    replace (dest +:+ "-" +:+ decimal n +:+ " (" +:+ decimal k +:+ " file(s))" +:+ JS.LF)
      with (tok +:+ String " " (("(" +:+ decimal k) +:+ String " " ("file(s))" +:+ JS.LF)))
      by (subst tok; now rewrite !append_assoc).
    rewrite (split_app " " tok) by exact Htok.
    rewrite (split_app " " ("(" +:+ decimal k))
      by (simpl; now apply all_digits_no_char).
    now rewrite split_no_sep by reflexivity. }
  unfold callback. rewrite Hsplit, !split_last.
  rewrite !filter_cons_True by (try reflexivity; exact Htt).
  rewrite filter_nil. cbn [length Nat.ltb Nat.leb Nat.sub JS.at_index lookup list_lookup default].
  subst tok. change (dest +:+ "-" +:+ decimal n) with (dest +:+ String "-" (decimal n)).
  unfold id. rewrite after_last_app by (now apply all_digits_no_char).
  rewrite ToNumber_digits by assumption. now rewrite Hn3.
Qed.

End JobId.

(** ** The status snapshot and the directory *)

Section Directory.

Variable os : system.

Lemma runCommandSync_ok cmd args :
  status (spawnSync os (mkInvocation cmd args None)) = Some 0%Z <->
  exists response, runCommandSync os cmd args = inl response.
Proof.
  unfold runCommandSync. destruct (decide _) as [H|H]; split; eauto.
  - intros E. contradiction.
  - intros [? E]. discriminate E.
Qed.

Lemma lpstat_command_keys key :
  key ∈ lpstat_keys ->
  exists cmd args,
    lpstat_command key = Some (cmd :: args) /\ (key, cmd :: args) ∈ lpstat_commands.
Proof.
  unfold lpstat_keys, lpstat_commands. cbn [fmap list_fmap fst].
  rewrite !elem_of_cons, elem_of_nil.
  intros H; decompose [or] H; subst; try contradiction;
    eexists _, _; (split; [reflexivity |]);
    rewrite !elem_of_cons; auto 10.
Qed.

Lemma lpstat_commands_keys key cmd args :
  (key, cmd :: args) ∈ lpstat_commands ->
  key ∈ lpstat_keys /\ lpstat_command key = Some (cmd :: args).
Proof.
  unfold lpstat_keys, lpstat_commands. cbn [fmap list_fmap fst].
  rewrite !elem_of_cons, elem_of_nil.
  intros H; decompose [or] H; try contradiction;
    match goal with E : (_, _) = (_, _) |- _ => injection E as -> -> -> end;
    (split; [rewrite ?elem_of_cons; auto 10 | reflexivity]).
Qed.

(** The blocking load: it starts at least one process; it ends with the
    error of the first command that fails, or with a snapshot that holds
    every key, which takes every command to succeed. *)
Lemma load_sync_spec keys : forall stats,
  (forall key, key ∈ keys -> key ∈ lpstat_keys) ->
  (keys <> [] -> fst (load_sync os keys stats) <> [])
  /\ match snd (load_sync os keys stats) with
     | inl stats' =>
         (forall key, key ∈ keys -> is_Some (stats' !! key))
         /\ (forall key, is_Some (stats !! key) -> is_Some (stats' !! key))
         /\ (forall key cmd args,
               key ∈ keys -> lpstat_command key = Some (cmd :: args) ->
               status (spawnSync os (mkInvocation cmd args None)) = Some 0%Z)
     | inr e =>
         exists key cmd args,
           key ∈ keys /\ (key, cmd :: args) ∈ lpstat_commands
           /\ runCommandSync os cmd args = inr e
     end.
Proof.
  induction keys as [|key keys IH]; intros stats Hk.
  - split; [congruence |]. simpl.
    split; [intros key []%elem_of_nil |]. split; [auto |].
    intros key cmd args []%elem_of_nil.
  - destruct (lpstat_command_keys key) as (cmd & args & Hc & Hin); [apply Hk; left |].
    cbn [load_sync]. rewrite Hc.
    destruct (runCommandSync os cmd args) as [response|e] eqn:Hrun.
    + specialize (IH (<[key := response]> stats)).
      destruct IH as [_ IH]; [intros k Hk'; apply Hk; now right |].
      destruct (load_sync os keys (<[key := response]> stats)) as [log r].
      cbn [fst snd] in *. split; [discriminate |].
      destruct r as [stats'|e].
      * destruct IH as (H1 & H2 & H3). repeat split.
        -- intros k [->|Hk']%elem_of_cons; [| now apply H1].
           apply H2. rewrite lookup_insert_eq. eauto.
        -- intros k Hs. apply H2.
           destruct (decide (key = k)) as [->|Hne].
           ++ rewrite lookup_insert_eq. eauto.
           ++ now rewrite lookup_insert_ne.
        -- intros k c a [->|Hk']%elem_of_cons Hc'; [| now apply (H3 k)].
           rewrite Hc in Hc'. injection Hc' as <- <-.
           apply runCommandSync_ok. eauto.
      * destruct IH as (k & c & a & Hk' & Hin' & Hr).
        exists k, c, a. split; [now right | auto].
    + cbn [fst snd]. split; [discriminate |].
      exists key, cmd, args. split; [left | auto].
Qed.

(** A snapshot that holds the five keys can be destructured. *)
Lemma stats_of_object_Some (stats : gmap string string) :
  (forall key, key ∈ lpstat_keys -> is_Some (stats !! key)) ->
  is_Some (stats_of_object stats).
Proof.
  intros H. unfold stats_of_object.
  destruct (H "accepting") as [? ->]; [unfold lpstat_keys; cbn; rewrite !elem_of_cons; auto 10 |].
  destruct (H "default") as [? ->]; [unfold lpstat_keys; cbn; rewrite !elem_of_cons; auto 10 |].
  destruct (H "addresses") as [? ->]; [unfold lpstat_keys; cbn; rewrite !elem_of_cons; auto 10 |].
  destruct (H "printers") as [? ->]; [unfold lpstat_keys; cbn; rewrite !elem_of_cons; auto 10 |].
  destruct (H "details") as [? ->]; [unfold lpstat_keys; cbn; rewrite !elem_of_cons; auto 10 |].
  simpl. eauto.
Qed.

(** The background load starts the five commands. *)
Lemma load_async_eq :
  load_async os =
    ([ mkInvocation "lpstat" ["-p"] None; mkInvocation "lpstat" ["-a"] None;
       mkInvocation "lpstat" ["-s"] None; mkInvocation "lpstat" ["-d"] None;
       mkInvocation "lpstat" ["-l"; "-p"] None ],
     [ runCommand os "lpstat" ["-p"]; runCommand os "lpstat" ["-a"];
       runCommand os "lpstat" ["-s"]; runCommand os "lpstat" ["-d"];
       runCommand os "lpstat" ["-l"; "-p"] ]).
Proof. reflexivity. Qed.

(** The blocking load of an unloaded directory: either it throws the
    error of a failed status command and changes nothing, or every
    command succeeded and the directory is loaded with what the parser
    returns. *)
Lemma getPrinters_cold this :
  Printer.printersLoaded this = false ->
  let c := Printer.getPrinters os this in
  Printer.started c <> [] /\ Printer.refresh c = None
  /\ match Printer.result c with
     | inl ps =>
         Printer.printers (Printer.this' c) = ps
         /\ Printer.printersLoaded (Printer.this' c) = true
         /\ forall key cmd args,
              (key, cmd :: args) ∈ lpstat_commands ->
              status (spawnSync os (mkInvocation cmd args None)) = Some 0%Z
     | inr e =>
         Printer.this' c = this
         /\ exists key cmd args,
              (key, cmd :: args) ∈ lpstat_commands
              /\ runCommandSync os cmd args = inr e
     end.
Proof.
  intros Hl c. subst c. unfold Printer.getPrinters. rewrite Hl. cbn [negb].
  destruct (load_sync_spec lpstat_keys ∅) as [Hlog Hr]; [auto |].
  destruct (load_sync os lpstat_keys ∅) as [log r]. cbn [fst snd] in *.
  destruct r as [stats|e].
  - destruct Hr as (H1 & _ & H3).
    destruct (stats_of_object_Some stats H1) as [st ->].
    cbn. split; [now apply Hlog |]. repeat split.
    intros key cmd args [Hk Hc]%lpstat_commands_keys. now apply (H3 key).
  - cbn. split; [now apply Hlog |]. repeat split.
    destruct Hr as (key & cmd & args & _ & Hin & Hrun). eauto.
Qed.

(** The background refresh of a loaded directory: the five commands are
    started and the cached list is returned as it is. *)
Lemma getPrinters_warm this :
  Printer.printersLoaded this = true ->
  Printer.getPrinters os this =
    Printer.mkCall this (fst (load_async os)) (Some (snd (load_async os)))
      (inl (Printer.printers this)).
Proof.
  intros Hl. unfold Printer.getPrinters. rewrite Hl. cbn [negb].
  now destruct (load_async os).
Qed.

Lemma runCommand_settled cmd args : runCommand os cmd args <> Pending.
Proof.
  unfold runCommand. destruct (spawn os _); [destruct (decide _) |]; discriminate.
Qed.

(** The promises of the background load come from the five commands. *)
Lemma load_async_promises p :
  p ∈ snd (load_async os) ->
  exists key cmd args,
    (key, cmd :: args) ∈ lpstat_commands /\ p = runCommand os cmd args.
Proof.
  rewrite load_async_eq. cbn [snd]. unfold lpstat_commands.
  rewrite !elem_of_cons, elem_of_nil.
  intros H; decompose [or] H; try contradiction; subst;
    eexists _, _, _; (split; [| reflexivity]); rewrite !elem_of_cons; auto 10.
Qed.

Lemma load_async_has key cmd args :
  (key, cmd :: args) ∈ lpstat_commands ->
  runCommand os cmd args ∈ snd (load_async os).
Proof.
  rewrite load_async_eq. cbn [snd]. unfold lpstat_commands.
  rewrite !elem_of_cons, elem_of_nil.
  intros H; decompose [or] H; try contradiction;
    match goal with E : (_, _) = (_, _) |- _ => injection E as -> -> -> end;
    auto 10.
Qed.

(** C6.  When one of the five status commands fails, the snapshot fails
    with the error of a failed command and the directory keeps its
    cached list and its loaded flag: the blocking load of an unloaded
    directory throws that error; the background refresh of a loaded
    directory is rejected with it and its callback never runs. *)
Theorem getPrinters_failure_keeps_cache this :
  (Printer.printersLoaded this = false ->
   (exists key cmd args,
       (key, cmd :: args) ∈ lpstat_commands
       /\ status (spawnSync os (mkInvocation cmd args None)) <> Some 0%Z) ->
   Printer.this' (Printer.getPrinters os this) = this
   /\ Printer.refresh (Printer.getPrinters os this) = None
   /\ exists e key cmd args,
        Printer.result (Printer.getPrinters os this) = inr e
        /\ (key, cmd :: args) ∈ lpstat_commands
        /\ runCommandSync os cmd args = inr e)
  /\ (Printer.printersLoaded this = true ->
      (exists key cmd args,
          (key, cmd :: args) ∈ lpstat_commands
          /\ fails (spawn os (mkInvocation cmd args None))) ->
      Printer.this' (Printer.getPrinters os this) = this
      /\ exists ps,
           Printer.refresh (Printer.getPrinters os this) = Some ps
           /\ (forall r, Promise_all ps r ->
                 exists e key cmd args,
                   r = Rejected e
                   /\ (key, cmd :: args) ∈ lpstat_commands
                   /\ runCommand os cmd args = Rejected e)
           /\ (forall that, Printer.refresh_settles this ps that -> that = this)).
Proof.
  split.
  - intros Hl (key & cmd & args & Hin & Hst).
    pose proof (getPrinters_cold this Hl) as (_ & Hre & Hres). cbv zeta in *.
    destruct (Printer.result (Printer.getPrinters os this)) as [ps|e].
    + destruct Hres as (_ & _ & Hok). exfalso. apply Hst. now apply (Hok key).
    + destruct Hres as (Ht & k & c & a & Hk & Hrun).
      split; [exact Ht |]. split; [exact Hre |]. exists e, k, c, a. auto.
  - intros Hl (key & cmd & args & Hin & Hf).
    rewrite (getPrinters_warm this Hl). cbn [Printer.this' Printer.refresh].
    destruct (runCommand_fails os cmd args Hf) as [text Hrej].
    assert (Rejected (Reason text) ∈ snd (load_async os)) as Hmem.
    { rewrite <- Hrej. now apply (load_async_has key). }
    pose proof load_async_promises as Hprom.
    revert Hmem Hprom. generalize (snd (load_async os)). intros ps0 Hmem Hprom.
    split; [reflexivity |]. exists ps0. split; [reflexivity |].
    assert (forall r, Promise_all ps0 r ->
              exists e key cmd args,
                r = Rejected e /\ (key, cmd :: args) ∈ lpstat_commands
                /\ runCommand os cmd args = Rejected e) as Hall.
    { intros r Hr. inversion Hr as [vs Hvs|ps e He|ps Hp Hno]; subst.
      - exfalso. apply list_elem_of_fmap in Hmem as (v & Hv & _). discriminate.
      - destruct (Hprom _ He) as (k & c & a & Hk & Hrun).
        exists e, k, c, a. auto.
      - exfalso. destruct (Hprom _ Hp) as (k & c & a & _ & Hrun).
        symmetry in Hrun. now apply runCommand_settled in Hrun. }
    split; [exact Hall |].
    intros that Hs. inversion Hs as [responses Hr|e Hr]; [| reflexivity].
    apply Hall in Hr as (e & _ & _ & _ & He & _). discriminate.
Qed.

(** With a loaded directory and a refresh timer, [getPrinter] answers
    from the cache and starts nothing. *)
Lemma getPrinter_cached this printerName :
  Printer.printersLoaded this = true ->
  is_Some (Printer.refreshInterval this) ->
  Printer.getPrinter os this printerName =
    Printer.mkCall this [] None
      (inl (JS.find (fun p => bool_decide (name p = Some printerName))
              (Printer.printers this))).
Proof.
  intros Hl Ht. unfold Printer.getPrinter. rewrite Hl.
  now rewrite bool_decide_eq_true_2.
Qed.

(** [autoRefresh] installs a timer whatever the interval. *)
Lemma autoRefresh_timer this interval :
  is_Some (Printer.refreshInterval (Printer.autoRefresh this interval))
  /\ Printer.printers (Printer.autoRefresh this interval) = Printer.printers this
  /\ Printer.printersLoaded (Printer.autoRefresh this interval) = Printer.printersLoaded this.
Proof. repeat split. eauto. Qed.

(** [print] on a printer of the directory is [lp_print]. *)
Lemma print_known_printer this options (σ : store) p :
  JS.truthy_opt (printer options) = true ->
  Printer.result (Printer.getPrinter os this (JS.str (printer options))) = inl (Some p) ->
  snd (Printer.print os this options σ) = lp_print os options σ.
Proof.
  intros Hp Hr. unfold Printer.print. now rewrite Hp, Hr.
Qed.

(** C8 (as amended).  On a directory that is unloaded or has no refresh
    timer, [getPrinter] first calls [getPrinters], which starts at least
    one process.  When that call throws, [getPrinter] throws the same
    error; this happens exactly when the directory is unloaded and a
    status command fails, and the error is the error of a failed
    command.  When the call returns, [getPrinter] returns the first
    record of the current cache with the name asked for, and the missing
    value when no record of the cache has that name. *)
Theorem getPrinter_loads_then_looks_up this printerName :
  Printer.printersLoaded this = false \/ Printer.refreshInterval this = None ->
  let c := Printer.getPrinter os this printerName in
  Printer.started c = Printer.started (Printer.getPrinters os this)
  /\ Printer.started c <> []
  /\ Printer.this' c = Printer.this' (Printer.getPrinters os this)
  /\ (match Printer.result c with
      | inl found =>
          found = JS.find (fun p => bool_decide (name p = Some printerName))
                    (Printer.printers (Printer.this' c))
          /\ ((forall p, p ∈ Printer.printers (Printer.this' c) ->
                         name p <> Some printerName) ->
              found = None)
      | inr e =>
          Printer.printersLoaded this = false
          /\ Printer.result (Printer.getPrinters os this) = inr e
          /\ exists key cmd args,
               (key, cmd :: args) ∈ lpstat_commands
               /\ runCommandSync os cmd args = inr e
      end)
  /\ (forall e, Printer.result (Printer.getPrinters os this) = inr e ->
                Printer.result c = inr e)
  /\ (forall ps, Printer.result (Printer.getPrinters os this) = inl ps ->
                 Printer.result c
                 = inl (JS.find (fun p => bool_decide (name p = Some printerName))
                          (Printer.printers (Printer.this' c))))
  /\ ((exists e, Printer.result c = inr e) <->
      Printer.printersLoaded this = false
      /\ exists key cmd args,
           (key, cmd :: args) ∈ lpstat_commands
           /\ status (spawnSync os (mkInvocation cmd args None)) <> Some 0%Z).
Proof.
  intros Hcond c. subst c. unfold Printer.getPrinter.
  assert (negb (Printer.printersLoaded this)
          || negb (bool_decide (is_Some (Printer.refreshInterval this))) = true) as ->.
  { destruct Hcond as [->| ->]; [reflexivity |].
    rewrite bool_decide_eq_false_2; [apply orb_true_r | intros [? [=]]]. }
  assert (Printer.started (Printer.getPrinters os this) <> []) as Hst.
  { destruct (Printer.printersLoaded this) eqn:Hl.
    - rewrite (getPrinters_warm this Hl), load_async_eq. discriminate.
    - apply (getPrinters_cold this Hl). }
  destruct (Printer.result (Printer.getPrinters os this)) as [ps|e] eqn:Hres;
    cbn [Printer.started Printer.this' Printer.result].
  - split; [reflexivity |]. split; [exact Hst |]. split; [reflexivity |].
    split.
    { split; [reflexivity |].
      intros Hno. apply find_None, Forall_forall. intros p Hp.
      apply bool_decide_eq_false_2. now apply Hno. }
    split; [intros e He; discriminate He |].
    split; [intros ps' _; reflexivity |].
    split; [intros [e He]; discriminate He |].
    intros (Hl & key & cmd & args & Hin & Hbad). exfalso.
    pose proof (getPrinters_cold this Hl) as (_ & _ & Hr). cbv zeta in Hr.
    rewrite Hres in Hr. destruct Hr as (_ & _ & Hok). apply Hbad. now apply (Hok key).
  - assert (Printer.printersLoaded this = false
            /\ exists key cmd args,
                 (key, cmd :: args) ∈ lpstat_commands
                 /\ runCommandSync os cmd args = inr e) as [Hl Hex].
    { destruct (Printer.printersLoaded this) eqn:Hl.
      - rewrite (getPrinters_warm this Hl) in Hres. discriminate.
      - pose proof (getPrinters_cold this Hl) as (_ & _ & Hr). cbv zeta in Hr.
        rewrite Hres in Hr. destruct Hr as (_ & Hex). auto. }
    split; [reflexivity |]. split; [exact Hst |]. split; [reflexivity |].
    split; [auto |].
    split; [intros e' He; congruence |].
    split; [intros ps Hps; discriminate Hps |].
    split; [intros _ | intros _; eauto].
    split; [exact Hl |].
    destruct Hex as (key & cmd & args & Hin & Hrun).
    exists key, cmd, args. split; [exact Hin |].
    intros H0. apply runCommandSync_ok in H0 as [response Hr]. congruence.
Qed.

End Directory.

(** ** The direct-submission variant *)

Section Direct.

Variable os : system.

Lemma fold_push l (optionsObj : list (string * string)) : forall xs (σ : store),
  fold_left (fun σ '(key, value) => push l ["-o"; key +:+ "=" +:+ value] σ)
    optionsObj (<[l := xs]> σ)
  = <[l := xs ++ concat ((fun '(key, value) => ["-o"; key +:+ "=" +:+ value])
                           <$> optionsObj)]> σ.
Proof.
  induction optionsObj as [|[key value] rest IH]; intros xs σ.
  - simpl. now rewrite app_nil_r.
  - cbn [fold_left fmap list_fmap concat]. rewrite push_insert, IH.
    now rewrite <- (assoc_L (++)).
Qed.

(** X15.  The array that [printDirect] fills is the array of extra
    arguments of [lp_print]: its flags, -o and the type as it was given
    and -o key=value for every option, come first on the command line,
    before the -o raw and the destination flag that [lp_print] adds. *)
Lemma printDirect_command_line options (σ : store) :
  error options = true -> success options = true ->
  payload_truthy (d_data options) = true ->
  JS.truthy_opt (d_printer options) = true ->
  spawned (printDirect os options σ) =
    [mkInvocation "lp"
       (direct_flags options ++ ["-o"; "raw"; "-d"; JS.str (d_printer options)])
       (d_data options)].
Proof.
  intros He Hs Hd Hp. unfold printDirect. rewrite He, Hs, Hd, Hp. cbn [negb].
  set (l := fresh (dom σ)). rewrite when_push.
  assert (match d_options options with
          | Some optionsObj =>
              fold_left (fun σ '(key, value) => push l ["-o"; key +:+ "=" +:+ value] σ)
                optionsObj
                (<[l := [] ++ (if JS.truthy_opt (d_type options)
                               then ["-o"; JS.str (d_type options)] else [])]> σ)
          | None =>
              <[l := [] ++ (if JS.truthy_opt (d_type options)
                            then ["-o"; JS.str (d_type options)] else [])]> σ
          end = <[l := direct_flags options]> σ) as ->.
  { unfold direct_flags. destruct (d_options options) as [optionsObj|].
    - now rewrite fold_push.
    - cbn [default fmap list_fmap concat]. now rewrite app_nil_r. }
  erewrite (lp_print_args os _ l (direct_flags options));
    [| reflexivity | apply lookup_insert_eq | unfold valid; cbn; now rewrite Hp, Hd].
  cbn [spawned]. unfold submission, generated. cbn. now rewrite Hp.
Qed.

End Direct.

(** ** Worked examples *)

(** The whole path on the host with the printer ZPL: the first call of
    [getPrinters] runs the five commands and returns the record of ZPL
    twice, once for the header line and once for the empty line after it. *)
Example getPrinters_cups_up :
  let c := Printer.getPrinters cups_up Printer.new in
  length (Printer.started c) = 5
  /\ Printer.result c = inl (extractPrinters zpl_stats)
  /\ (fun p => (name p, isDefault p, map_to_list (options p))) <$> extractPrinters zpl_stats
     = [ (Some "ZPL", true,
          [("device-uri", "socket://192.168.1.40:9100");
           ("printer-is-accepting-jobs", "true");
           ("printer-info", "Toshiba Label Printer");
           ("printer-location", "XT2")]);
         (Some "ZPL", true,
          [("device-uri", "socket://192.168.1.40:9100");
           ("printer-is-accepting-jobs", "true");
           ("printer-info", "Toshiba Label Printer");
           ("printer-location", "XT2")]) ].
Proof. vm_compute. repeat split. Qed.

(** C2 (witness): the request of the example on the host where every
    command fails. *)
Lemma lp_print_failure_never_rejects_witness :
  allocated request_P1 ∅
  /\ valid request_P1 = true
  /\ (forall inv, command inv = "lp" -> fails (spawn cups_down inv))
  /\ returned (lp_print cups_down request_P1 ∅) = Pending.
Proof.
  assert (allocated request_P1 ∅) as H1 by (intros l H; discriminate H).
  assert (valid request_P1 = true) as H2 by reflexivity.
  assert (forall inv, command inv = "lp" -> fails (spawn cups_down inv)) as H3
    by (intros inv _; simpl; discriminate).
  repeat (split; [assumption |]).
  exact (proj1 (lp_print_failure_never_rejects cups_down request_P1 ∅ H1 H2 H3)).
Defined.




(** C6 (witness): the unloaded directory and a loaded directory on the
    host where every command fails. *)
Lemma getPrinters_failure_keeps_cache_witness :
  (Printer.printersLoaded Printer.new = false
   /\ (exists key cmd args,
         (key, cmd :: args) ∈ lpstat_commands
         /\ status (spawnSync cups_down (mkInvocation cmd args None)) <> Some 0%Z)
   /\ Printer.this' (Printer.getPrinters cups_down Printer.new) = Printer.new)
  /\ (Printer.printersLoaded loaded_directory = true
      /\ (exists key cmd args,
            (key, cmd :: args) ∈ lpstat_commands
            /\ fails (spawn cups_down (mkInvocation cmd args None)))
      /\ Printer.this' (Printer.getPrinters cups_down loaded_directory) = loaded_directory).
Proof.
  assert (("printers", ["lpstat"; "-p"]) ∈ lpstat_commands) as Hin by left.
  split.
  - assert (exists key cmd args,
              (key, cmd :: args) ∈ lpstat_commands
              /\ status (spawnSync cups_down (mkInvocation cmd args None)) <> Some 0%Z) as Hf
      by (exists "printers", "lpstat", ["-p"]; split; [exact Hin | discriminate]).
    split; [reflexivity |]. split; [exact Hf |].
    exact (proj1 (proj1 (getPrinters_failure_keeps_cache cups_down Printer.new) eq_refl Hf)).
  - assert (exists key cmd args,
              (key, cmd :: args) ∈ lpstat_commands
              /\ fails (spawn cups_down (mkInvocation cmd args None))) as Hf
      by (exists "printers", "lpstat", ["-p"]; split; [exact Hin | discriminate]).
    split; [reflexivity |]. split; [exact Hf |].
    exact (proj1 (proj2 (getPrinters_failure_keeps_cache cups_down loaded_directory)
                    eq_refl Hf)).
Defined.

(** C7 (witness): the listing names the printer A, the other texts only
    know the printer B. *)
Lemma extractPrinters_options_witness :
  let stats :=
    mkStats ("printer A is idle." ++ JS.LF) ("B accepting requests" ++ JS.LF)
      ("device for B: ipp://b" ++ JS.LF) "no system default destination" "" in
  header_record stats (Some "A") ∈ extractPrinters stats
  /\ options (header_record stats (Some "A")) !! "device-uri" = Some ""
  /\ options (header_record stats (Some "A")) !! "printer-is-accepting-jobs" = Some "false".
Proof.
  intros stats.
  assert (header_record stats (Some "A") ∈ extractPrinters stats) as Hin
    by (vm_compute; left).
  split; [exact Hin |].
  destruct (extractPrinters_options stats _ Hin) as [_ H].
  destruct H as (H1 & H2 & _); [reflexivity .. |].
  split; [exact H1 | exact H2].
Defined.

(** C8 (counterexample).  On the host where every command fails, the
    unloaded directory knows no printer, yet [getPrinter] does not return
    the missing value for the name P1: it throws the error of the first
    status command. *)
Lemma getPrinter_cold_failure_throws :
  Printer.printersLoaded Printer.new = false
  /\ (forall p, p ∈ Printer.printers Printer.new -> name p <> Some "P1")
  /\ Printer.result (Printer.getPrinter cups_down Printer.new "P1")
     = inr (Error "Failed to run command 'lpstat -p' - Unable to connect to server")
  /\ Printer.result (Printer.getPrinter cups_down Printer.new "P1") <> inl None.
Proof.
  split; [reflexivity |]. split; [intros p Hp; inversion Hp |].
  split; [reflexivity | discriminate].
Qed.

(** C8 (witness): the unloaded directory on the host with the printer
    ZPL, asked for a printer it does not have, and on the host where
    every command fails. *)
Lemma getPrinter_loads_then_looks_up_witness :
  (Printer.printersLoaded Printer.new = false \/ Printer.refreshInterval Printer.new = None)
  /\ Printer.started (Printer.getPrinter cups_up Printer.new "HP") <> []
  /\ Printer.this' (Printer.getPrinter cups_up Printer.new "HP")
     = Printer.this' (Printer.getPrinters cups_up Printer.new)
  /\ Printer.result (Printer.getPrinter cups_up Printer.new "HP") = inl None
  /\ Printer.result (Printer.getPrinter cups_down Printer.new "HP")
     = inr (Error "Failed to run command 'lpstat -p' - Unable to connect to server").
Proof.
  assert (Printer.printersLoaded Printer.new = false
          \/ Printer.refreshInterval Printer.new = None) as H by (left; reflexivity).
  split; [exact H |].
  destruct (getPrinter_loads_then_looks_up cups_up Printer.new "HP" H)
    as (_ & H1 & H2 & _ & _ & H3 & _).
  destruct (getPrinter_loads_then_looks_up cups_down Printer.new "HP" H)
    as (_ & _ & _ & _ & H4 & _).
  split; [exact H1 |]. split; [exact H2 |].
  split; [exact (H3 _ eq_refl) | exact (H4 _ eq_refl)].
Defined.

(** C9 (witness): the record of ZPL; the accepting text has a line with
    "ZPL accepting". *)
Lemma extractPrinters_address_and_accepting_witness :
  header_record zpl_stats (Some "ZPL") ∈ extractPrinters zpl_stats
  /\ options (header_record zpl_stats (Some "ZPL")) !! "printer-is-accepting-jobs"
     = Some "true".
Proof.
  assert (header_record zpl_stats (Some "ZPL") ∈ extractPrinters zpl_stats) as Hin
    by (vm_compute; left).
  split; [exact Hin |].
  destruct (extractPrinters_address_and_accepting zpl_stats _ Hin) as (_ & _ & H & _).
  apply H. exists "ZPL accepting requests since Fri 09 Jun 2023".
  split; [vm_compute; left | apply includes_spec; reflexivity].
Defined.

(** C9 (counterexample): the address is not the last white-space token
    of the line.  A tabulation does not end a token for the parser, and
    after a final space the parser's last piece is empty. *)
Lemma device_uri_not_last_whitespace_token :
  (extractPrinters tabbed_stats = [header_record tabbed_stats (Some "A")]
   /\ JS.includes "A: " (addresses tabbed_stats) = true
   /\ options (header_record tabbed_stats (Some "A")) !! "device-uri"
      = Some ("ipp://a" +:+ TAB +:+ "b")
   /\ address_as_specified tabbed_stats "A" = "b"
   /\ options (header_record tabbed_stats (Some "A")) !! "device-uri"
      <> Some (address_as_specified tabbed_stats "A"))
  /\ (extractPrinters open_ended_stats = [header_record open_ended_stats (Some "A")]
      /\ JS.includes "A: " (addresses open_ended_stats) = true
      /\ options (header_record open_ended_stats (Some "A")) !! "device-uri" = Some ""
      /\ address_as_specified open_ended_stats "A" = "A:"
      /\ options (header_record open_ended_stats (Some "A")) !! "device-uri"
         <> Some (address_as_specified open_ended_stats "A")).
Proof. repeat split; vm_compute; first [reflexivity | discriminate]. Qed.

(** C10 (witness): the caller's array holds one option. *)
Lemma lp_print_appends_to_caller_array_witness :
  args request_extra = Some 1%positive
  /\ ({[1%positive := ["-o"; "media=A4"]]} : store) !! 1%positive = Some ["-o"; "media=A4"]
  /\ valid request_extra = true
  /\ heap (lp_print cups_up request_extra {[1%positive := ["-o"; "media=A4"]]}) !! 1%positive
     = Some ["-o"; "media=A4"; "-o"; "raw"; "-d"; "P1"].
Proof.
  repeat (split; [reflexivity |]).
  exact (proj1 (lp_print_appends_to_caller_array cups_up request_extra 1%positive
                  ["-o"; "media=A4"] {[1%positive := ["-o"; "media=A4"]]}
                  eq_refl eq_refl eq_refl)).
Defined.

(** The earlier parser returns two records for the same listing. *)
Example Vovk_trailing_line :
  name <$> Vovk.extractPrinters ("printer A is idle." ++ JS.LF) = [Some "A"; Some "A"].
Proof. reflexivity. Qed.

(** The public [print] on the host where [lp] fails: the printer is
    known, the command fails, and the promise stays pending. *)
Example print_failure_stays_pending :
  let this := Printer.autoRefresh loaded_directory None in
  Printer.result (Printer.getPrinter lp_down this "ZPL")
    = inl (JS.find (fun p => bool_decide (name p = Some "ZPL")) (extractPrinters zpl_stats))
  /\ returned (snd (Printer.print lp_down this request_ZPL ∅)) = Pending.
Proof. split; reflexivity. Qed.

(** * Further properties *)

(** ** The printer-status parser *)

Section Extractor_more.

Variable stats : LPSTAT_out.

Lemma from_first_header_none lines :
  (forall line, line ∈ lines -> is_header line = false) ->
  from_first_header lines = [].
Proof.
  induction lines as [|line lines IH]; intros H; [reflexivity |].
  cbn [from_first_header]. rewrite (H line) by left.
  apply IH. intros l Hl. apply H. now right.
Qed.

(** X1.  The parser returns as many records as the listing has lines
    from its first header line on, headers or not; a listing without a
    header line, the empty listing among them, gives no record. *)
Theorem extractPrinters_count :
  length (extractPrinters stats)
  = length (from_first_header (JS.split JS.LF (printers stats)))
  /\ ((forall line, line ∈ JS.split JS.LF (printers stats) -> is_header line = false) ->
      extractPrinters stats = []).
Proof.
  split; [apply extractPrinters_length |].
  intros H. apply length_zero_iff_nil.
  now rewrite extractPrinters_length, from_first_header_none.
Qed.

(** The records only accumulate, and a header line adds its record. *)
Lemma extract_fold_grows lines : forall st r,
  r ∈ snd st -> r ∈ snd (fold_left (extract_line stats) lines st).
Proof.
  induction lines as [|line lines IH]; intros st r Hr; [exact Hr |].
  cbn [fold_left]. apply IH.
  destruct (is_header line) eqn:Hh.
  - rewrite extract_line_header by exact Hh. cbn [snd]. apply elem_of_app. now left.
  - rewrite extract_line_other by exact Hh. cbn [snd].
    destruct (fst st); [apply elem_of_app; now left | exact Hr].
Qed.

Lemma extract_fold_header lines : forall st line,
  line ∈ lines -> is_header line = true ->
  header_record stats (JS.split " " line !! 1)
  ∈ snd (fold_left (extract_line stats) lines st).
Proof.
  induction lines as [|l lines IH]; intros st line Hin Hh.
  - now apply elem_of_nil in Hin.
  - cbn [fold_left]. apply elem_of_cons in Hin as [<-|Hin].
    + apply extract_fold_grows. rewrite extract_line_header by exact Hh.
      cbn [snd]. apply elem_of_app. right. left.
    + now apply IH.
Qed.

(** X2.  The names of the records are exactly the second words of the
    header lines of the listing: every record carries the name of a
    header line, and every header line has a record. *)
Theorem extractPrinters_names nm :
  nm ∈ name <$> extractPrinters stats <->
  exists line,
    line ∈ JS.split JS.LF (printers stats) /\ is_header line = true
    /\ JS.split " " line !! 1 = nm.
Proof.
  rewrite list_elem_of_fmap. split.
  - intros (r & -> & Hr).
    destruct (extractPrinters_records stats r Hr) as (line & Hl & Hh & ->).
    exists line. auto.
  - intros (line & Hl & Hh & <-).
    exists (header_record stats (JS.split " " line !! 1)). split; [reflexivity |].
    now apply extract_fold_header.
Qed.

(** X3.  A record is the default printer exactly when its name occurs
    in the text of the default query. *)
Theorem extractPrinters_isDefault r :
  r ∈ extractPrinters stats ->
  (isDefault r = true <-> occurs (JS.str (name r)) (defaultPrinter stats)).
Proof.
  intros Hr. rewrite (extractPrinters_header_record _ _ Hr).
  cbn [isDefault name header_record]. apply includes_spec.
Qed.

(** X4.  The options of a record never hold a key other than
    "printer-is-accepting-jobs", "device-uri", "printer-info" and
    "printer-location". *)
Theorem extractPrinters_option_keys r k :
  r ∈ extractPrinters stats ->
  is_Some (options r !! k) ->
  k ∈ ["printer-is-accepting-jobs"; "device-uri"; "printer-info"; "printer-location"].
Proof.
  intros Hr. rewrite (extractPrinters_header_record _ _ Hr).
  rewrite !elem_of_cons.
  destruct (decide (k = "printer-info")) as [->|H1]; [auto |].
  destruct (decide (k = "printer-location")) as [->|H2]; [auto 6 |].
  rewrite header_record_lookup by assumption.
  destruct (decide (k = "device-uri")) as [->|H3]; [auto |].
  destruct (decide (k = "printer-is-accepting-jobs")) as [->|H4]; [auto |].
  rewrite lookup_insert_ne, lookup_singleton_ne by congruence.
  intros [? [=]].
Qed.

End Extractor_more.

Section Extractor_info.

Variable stats : LPSTAT_out.

Lemma slice_app p rest : JS.slice (String.length p) (p +:+ rest) = rest.
Proof. induction p as [|c p IH]; [now destruct rest | exact IH]. Qed.

(** A key set from a block comes from a trimmed row of the block that
    starts with the label of the key. *)
Lemma detail_info_lookup block key label v :
  (key, label) ∈ lpstat_detail_ki ->
  detail_info block !! key = Some v ->
  exists rest,
    (label +:+ rest) ∈ (JS.trim <$> JS.split JS.LF block) /\ v = JS.trim rest.
Proof.
  unfold lpstat_detail_ki. rewrite !elem_of_cons, elem_of_nil.
  unfold detail_info, lpstat_detail_ki. cbn [fold_left].
  set (rows := filter (fun r => JS.truthy r = true) (JS.trim <$> JS.split JS.LF block)).
  assert (forall label row, JS.find (JS.startsWith label) rows = Some row ->
            exists rest, (label +:+ rest) ∈ (JS.trim <$> JS.split JS.LF block)
                         /\ JS.slice (String.length label) row = rest) as Hrow.
  { intros lb row (pre & post & Hrows & [rest ->]%startsWith_spec & _)%find_Some.
    exists rest. split; [| apply slice_app].
    assert ((lb +:+ rest) ∈ rows) as Hin
      by (rewrite Hrows; apply elem_of_app; right; left).
    now apply list_elem_of_filter in Hin as [_ Hin]. }
  intros [H|[H|[]]]; injection H as -> ->.
  - destruct (JS.find (JS.startsWith "Description: ") rows) as [row|] eqn:E1;
      destruct (JS.find (JS.startsWith "Location: ") rows) as [row2|] eqn:E2;
      try destruct (JS.truthy row); try destruct (JS.truthy row2);
      rewrite ?lookup_insert_ne, ?lookup_insert_eq, ?lookup_empty by discriminate.
    all: try (intros Hv; discriminate Hv).
    all: intros [= <-].
    all: destruct (Hrow _ _ E1) as (rest & Hin & Hs).
    all: exists rest; split; [exact Hin | f_equal; exact Hs].
  - destruct (JS.find (JS.startsWith "Description: ") rows) as [row|] eqn:E1;
      destruct (JS.find (JS.startsWith "Location: ") rows) as [row2|] eqn:E2;
      try destruct (JS.truthy row); try destruct (JS.truthy row2);
      rewrite ?lookup_insert_ne, ?lookup_insert_eq, ?lookup_empty by discriminate.
    all: try (intros Hv; discriminate Hv).
    all: intros [= <-].
    all: destruct (Hrow _ _ E2) as (rest & Hin & Hs).
    all: exists rest; split; [exact Hin | f_equal; exact Hs].
Qed.

(** X5.  A description or a location in the options of a record comes
    from the details text: from a block, among those that the text
    "line feed, printer" separates, that contains the name followed by
    a space, and from a row of that block that, once trimmed, starts with
    "Description: " or "Location: "; the value is the rest of the row,
    trimmed. *)
Theorem extractPrinters_descriptive_info r key label v :
  r ∈ extractPrinters stats ->
  (key, label) ∈ lpstat_detail_ki ->
  options r !! key = Some v ->
  exists block rest,
    block ∈ JS.split (JS.LF +:+ "printer") (details stats)
    /\ occurs (JS.str (name r) +:+ " ") block
    /\ (label +:+ rest) ∈ (JS.trim <$> JS.split JS.LF block)
    /\ v = JS.trim rest.
Proof.
  intros Hr Hk. rewrite (extractPrinters_header_record _ _ Hr).
  unfold header_record. cbn [options name].
  intros [Hi|[_ Hb]]%lookup_union_Some_raw.
  - destruct (JS.find _ (filter _ _)) as [block|] eqn:E;
      [| now rewrite lookup_empty in Hi].
    apply find_Some in E as (pre & post & Hl & Hinc & _).
    assert (block ∈ filter (fun b => JS.truthy b = true)
                      (JS.split (JS.LF +:+ "printer") (details stats))) as Hin
      by (rewrite Hl; apply elem_of_app; right; left).
    apply list_elem_of_filter in Hin as [Ht Hin]. rewrite Ht in Hi.
    destruct (detail_info_lookup block key label v Hk Hi) as (rest & Hrow & ->).
    exists block, rest. repeat split; auto. now apply includes_spec.
  - exfalso. unfold lpstat_detail_ki in Hk.
    rewrite !elem_of_cons, elem_of_nil in Hk.
    destruct Hk as [H|[H|[]]]; injection H as -> ->;
      now rewrite lookup_insert_ne, lookup_singleton_ne in Hb.
Qed.

End Extractor_info.

(** ** The job-submission translator *)

Section Translator_more.

Variable os : system.

(** The promise of a valid request follows the end of its process. *)
Lemma submitted_spawn options argv :
  valid options = true ->
  submitted os options argv =
    match spawn os (submission options argv) with
    | Close code out err =>
        if decide (code = Some 0%Z) then Fulfilled (callback out) else Pending
    | SpawnThrows _ => Pending
    end.
Proof.
  unfold valid, submitted, submission, runCommand, runCommandPipe.
  intros [_ Hd]%andb_true_iff.
  destruct (JS.truthy_opt (file options)).
  - destruct (spawn os _) as [code out err|err]; [destruct (decide _) |]; reflexivity.
  - rewrite orb_false_r in Hd. destruct (data options) as [input|]; [| discriminate].
    destruct (spawn os _) as [code out err|err]; [destruct (decide _) |]; reflexivity.
Qed.

(** X6.  [lp_print] starts a process exactly when the request passes
    validation; it never starts more than one, and the command is [lp]. *)
Theorem lp_print_starts_iff_valid options (σ : store) :
  allocated options σ ->
  (spawned (lp_print os options σ) = [] <-> valid options = false)
  /\ length (spawned (lp_print os options σ)) <= 1
  /\ forall inv, inv ∈ spawned (lp_print os options σ) -> command inv = "lp".
Proof.
  intros Hal. destruct (valid options) eqn:Hv.
  - destruct (lp_print_valid os options σ Hal Hv) as (xs & σ' & ->). cbn [spawned].
    split; [split; discriminate |]. split; [simpl; lia |].
    now intros inv ->%list_elem_of_singleton.
  - destruct (lp_print_invalid os options σ Hv) as (σ' & e & -> & _). cbn [spawned].
    split; [split; reflexivity |]. split; [simpl; lia |].
    intros inv Hin. now apply elem_of_nil in Hin.
Qed.


(** X8.  Without an array of extra arguments, [lp_print] works on an
    array of its own: every array that was in the store is left as it
    was, whether the request is valid or not. *)
Theorem lp_print_fresh_array_frame options (σ : store) l :
  args options = None -> is_Some (σ !! l) ->
  heap (lp_print os options σ) !! l = σ !! l.
Proof.
  intros Ha Hl. destruct (valid options) eqn:Hv.
  - rewrite (lp_print_no_args os options σ Ha Hv). cbn [heap].
    apply lookup_insert_ne. intros <-.
    apply (is_fresh (dom σ)). now apply elem_of_dom.
  - destruct (lp_print_invalid os options σ Hv) as (σ' & e & -> & Hh & _).
    now apply Hh.
Qed.

(** X9.  The array of extra arguments keeps what a call pushed: a second
    call with the same request has every generated flag twice on its
    command line and leaves the array with both copies. *)
Theorem lp_print_twice_accumulates options l xs (σ : store) :
  args options = Some l -> σ !! l = Some xs -> valid options = true ->
  let again := lp_print os options (heap (lp_print os options σ)) in
  (exists inv,
      spawned again = [inv]
      /\ argv inv = xs ++ generated options ++ generated options)
  /\ heap again !! l = Some (xs ++ generated options ++ generated options).
Proof.
  intros Ha Hl Hv again. subst again.
  rewrite (lp_print_args os options l xs σ Ha Hl Hv). cbn [heap].
  rewrite (lp_print_args os options l (xs ++ generated options) _ Ha
             (lookup_insert_eq _ _ _) Hv).
  cbn [heap spawned]. rewrite <- (assoc_L (++)).
  split; [eexists; split; reflexivity | apply lookup_insert_eq].
Qed.

End Translator_more.

Section Translator_flags.

Variable os : system.

Lemma lower_char_idem c : JS.lower_char (JS.lower_char c) = JS.lower_char c.
Proof. destruct c as [[] [] [] [] [] [] [] []]; vm_compute; reflexivity. Qed.

Lemma toLowerCase_idem s : JS.toLowerCase (JS.toLowerCase s) = JS.toLowerCase s.
Proof.
  induction s as [|c s IH]; [reflexivity |].
  cbn [JS.toLowerCase]. now rewrite lower_char_idem, IH.
Qed.

(** X10.  A valid request without a file and without extra arguments has
    the format flag first: -o and the type in lower case, "raw" when the
    request has no type or an empty one; the data is what the process
    reads. *)
Theorem lp_print_format_flag options (σ : store) :
  args options = None -> valid options = true ->
  JS.truthy_opt (file options) = false ->
  (exists rest,
      spawned (lp_print os options σ)
      = [mkInvocation "lp" ("-o" :: format options :: rest) (data options)])
  /\ JS.toLowerCase (format options) = format options
  /\ (JS.truthy_opt (type options) = false -> format options = "raw")
  /\ (forall t, type options = Some t -> JS.truthy t = true ->
                format options = JS.toLowerCase t).
Proof.
  intros Ha Hv Hf. rewrite (lp_print_no_args os options σ Ha Hv). cbn [spawned].
  split; [| split; [| split]].
  - unfold submission, generated. rewrite Hf. cbn [negb app]. eexists. reflexivity.
  - unfold format. apply toLowerCase_idem.
  - unfold format. destruct (type options) as [t|]; [| reflexivity].
    cbn [JS.truthy_opt]. now intros ->.
  - intros t Ht Htt. unfold format. now rewrite Ht, Htt.
Qed.

Lemma string_of_Z_truthy z : JS.truthy (JS.string_of_Z z) = true.
Proof.
  unfold JS.string_of_Z. destruct (Z.to_int z) as [d|d]; [| reflexivity].
  cbn [NilZero.string_of_int NilZero.string_of_uint]. now destruct d.
Qed.

(** X11.  The host flag of a valid request with a non-empty host carries
    the host alone when the port is absent or 0, and the host, a colon
    and the port otherwise. *)
Theorem lp_print_host_flag options (σ : store) h :
  allocated options σ -> valid options = true ->
  host options = Some h -> JS.truthy h = true ->
  exists inv pre post,
    spawned (lp_print os options σ) = [inv]
    /\ argv inv = pre ++ "-h" :: host_value h (port options) :: post.
Proof.
  intros Hal Hv Hh Ht.
  destruct (lp_print_valid os options σ Hal Hv) as (xs & σ' & ->). cbn [spawned].
  assert (host_port options = host_value h (port options)) as Hhp.
  { unfold host_port, host_value. rewrite Hh, Ht.
    rewrite filter_cons_True by exact Ht.
    destruct (port options) as [z|]; cbn [num_truthy default]; [| reflexivity].
    destruct (z =? 0)%Z; cbn [negb]; [reflexivity |].
    rewrite filter_cons_True by apply string_of_Z_truthy. reflexivity. }
  assert (JS.truthy (host_value h (port options)) = true) as Htv.
  { unfold host_value. destruct (port options) as [z|]; [| exact Ht].
    destruct (z =? 0)%Z; [exact Ht | now destruct h]. }
  exists (submission options (xs ++ generated options)),
    (xs ++ (if negb (JS.truthy_opt (file options)) then ["-o"; format options] else [])
        ++ (if num_truthy (copies options)
            then ["-n"; JS.string_of_Z (default 0%Z (copies options))] else [])
        ++ (if JS.truthy_opt (printer options) then ["-d"; JS.str (printer options)] else [])).
  eexists. split; [reflexivity |]. cbn [argv submission].
  unfold generated. rewrite Hhp, Htv.
  rewrite <- !(assoc_L (++)). reflexivity.
Qed.

End Translator_flags.

(** ** The job id *)

Section JobId_more.

Lemma split_all_spaces s :
  all_spaces s = true ->
  Forall (fun w => w = "") (JS.split " " s).
Proof.
  unfold JS.split. induction s as [|c s IH]; intros H.
  - repeat constructor.
  - simpl in H. apply andb_true_iff in H as [Hc Hs].
    apply Ascii.eqb_eq in Hc as ->. specialize (IH Hs).
    cbn [JS.split_go JS.startsWith String.length Nat.sub]. rewrite Ascii.eqb_refl.
    destruct (JS.split_go " " 0 s) as [t r]. now constructor.
Qed.

Lemma all_spaces_no_dash s : all_spaces s = true -> has_char "-" s = false.
Proof.
  induction s as [|c s IH]; [reflexivity |]. simpl.
  intros [->%Ascii.eqb_eq Hs]%andb_true_iff. now rewrite IH.
Qed.

Lemma trimStart_all_spaces s : all_spaces s = true -> JS.trimStart s = "".
Proof.
  induction s as [|c s IH]; [reflexivity |]. simpl.
  intros [->%Ascii.eqb_eq Hs]%andb_true_iff. now apply IH.
Qed.

(** X13.  A response that is empty or made of spaces only gives the job
    id 0, not an error and not NaN. *)
Theorem callback_blank response :
  all_spaces response = true -> callback response = JS.Int 0.
Proof.
  intros H. unfold callback.
  assert (filter (fun w => JS.truthy w = true) (JS.split " " response) = []) as ->.
  { pose proof (split_all_spaces response H) as Hall.
    induction Hall as [|w l -> _ IH]; [reflexivity |].
    now rewrite filter_cons_False by discriminate. }
  cbn [length Nat.ltb Nat.leb]. rewrite split_last.
  rewrite after_last_none by now apply all_spaces_no_dash.
  unfold JS.ToNumber, JS.trim. now rewrite trimStart_all_spaces.
Qed.

Lemma callback_blank_witness :
  all_spaces "   " = true /\ callback "   " = JS.Int 0.
Proof. split; [reflexivity | apply callback_blank; reflexivity]. Defined.

Lemma callback_confirmation_witness :
  has_char " " "ZPL-PRINTER" = false
  /\ (92 <= 2 ^ 53)%N
  /\ callback ("request id is " +:+ "ZPL-PRINTER" +:+ "-" +:+ decimal 92
               +:+ " (" +:+ decimal 1 +:+ " file(s))" +:+ JS.LF) = JS.Int 92.
Proof.
  assert (92 <= 2 ^ 53)%N as Hn by (vm_compute; discriminate).
  split; [reflexivity |]. split; [exact Hn |].
  apply callback_confirmation; [reflexivity | exact Hn].
Defined.

Lemma callback_after_Vovk response :
  callback response = JS.ToNumber (after_last "-" (Vovk.callback response)).
Proof. unfold callback, Vovk.callback. now rewrite split_last. Qed.

(** X14.  The two versions of the callback agree up to the conversion:
    the later job id is the number after the last "-" of the earlier
    job id, which is the third word from the end of a response of more
    than three words and the response itself otherwise. *)
Theorem callback_of_Vovk_callback response :
  callback response = JS.ToNumber (after_last "-" (Vovk.callback response))
  /\ ((3 < length (words response))%nat ->
      words response !! (length (words response) - 3) = Some (Vovk.callback response))
  /\ ((length (words response) <= 3)%nat -> Vovk.callback response = response).
Proof.
  split; [apply callback_after_Vovk |].
  unfold Vovk.callback. fold (words response). split.
  - intros H. apply Nat.ltb_lt in H as Hb. rewrite Hb.
    destruct (lookup_lt_is_Some_2 (words response) (length (words response) - 3))
      as [word Hw]; [lia |].
    unfold JS.at_index. now rewrite Hw.
  - intros H. apply Nat.ltb_ge in H. now rewrite H.
Qed.

End JobId_more.

(** ** The direct-submission variant *)

Section Direct_more.

Variable os : system.

(** A complete direct request is the request [direct_request] given to
    [lp_print], with the callbacks on its promise. *)
Lemma printDirect_complete options (σ : store) :
  complete options = true ->
  printDirect os options σ =
    let o := lp_print os (direct_request options (fresh (dom σ)))
               (<[fresh (dom σ) := direct_flags options]> σ) in
    mkOutcome (heap o) (spawned o) (then_callbacks (returned o)).
Proof.
  unfold complete. intros [[[He Hs]%andb_true_iff Hd]%andb_true_iff Hp]%andb_true_iff.
  unfold printDirect. rewrite He, Hs, Hd, Hp. cbn [negb].
  set (l := fresh (dom σ)). rewrite when_push.
  assert (match d_options options with
          | Some optionsObj =>
              fold_left (fun σ '(key, value) => push l ["-o"; key +:+ "=" +:+ value] σ)
                optionsObj
                (<[l := [] ++ (if JS.truthy_opt (d_type options)
                               then ["-o"; JS.str (d_type options)] else [])]> σ)
          | None =>
              <[l := [] ++ (if JS.truthy_opt (d_type options)
                            then ["-o"; JS.str (d_type options)] else [])]> σ
          end = <[l := direct_flags options]> σ) as ->; [| reflexivity].
  unfold direct_flags. destruct (d_options options) as [optionsObj|].
  - now rewrite fold_push.
  - cbn [default fmap list_fmap concat]. now rewrite app_nil_r.
Qed.

Lemma direct_request_valid options l :
  complete options = true -> valid (direct_request options l) = true.
Proof.
  unfold complete, valid, direct_request. cbn.
  intros [[_ ->]%andb_true_iff ->]%andb_true_iff. reflexivity.
Qed.

(** The array a complete request fills before it calls [lp_print]. *)
Lemma direct_flags_store (ty : option string) (opts : option (list (string * string)))
    (l : loc) (σ : store) :
  match opts with
  | Some optionsObj =>
      fold_left (fun σ '(key, value) => push l ["-o"; key +:+ "=" +:+ value] σ)
        optionsObj
        (when (JS.truthy_opt ty) (push l ["-o"; JS.str ty]) (<[l := []]> σ))
  | None => when (JS.truthy_opt ty) (push l ["-o"; JS.str ty]) (<[l := []]> σ)
  end
  = <[l := (if JS.truthy_opt ty then ["-o"; JS.str ty] else [])
           ++ concat ((fun '(key, value) => ["-o"; key +:+ "=" +:+ value])
                        <$> default [] opts)]> σ.
Proof.
  rewrite when_push. destruct opts as [optionsObj|].
  - now rewrite fold_push.
  - cbn [default fmap list_fmap concat]. now rewrite app_nil_r.
Qed.

Lemma Callbacks_printDirect_complete options (σ : store) :
  complete (supplied options) = true ->
  exists inv,
    spawned (Callbacks.printDirect os options σ) = [inv]
    /\ spawned (printDirect os (supplied options) σ) = [inv]
    /\ heap (Callbacks.printDirect os options σ)
       = heap (printDirect os (supplied options) σ)
    /\ (forall l, is_Some (σ !! l) ->
                  heap (Callbacks.printDirect os options σ) !! l = σ !! l)
    /\ returned (printDirect os (supplied options) σ) = then_callbacks (settled os inv)
    /\ returned (Callbacks.printDirect os options σ)
       = let '(called, reason) :=
           Callbacks.then_ (Callbacks.success options) (settled os inv) in
         let '(called', reason') := Callbacks.catch_ (Callbacks.error options) reason in
         Callbacks.mkObserved (called ++ called') None reason'.
Proof.
  intros Hc. rewrite (printDirect_complete (supplied options) σ Hc). cbv zeta.
  pose proof Hc as Hc'. unfold complete in Hc'. cbn in Hc'.
  apply andb_true_iff in Hc' as [[[He Hs]%andb_true_iff Hd]%andb_true_iff Hp].
  unfold Callbacks.printDirect. rewrite He, Hs, Hd, Hp. cbn [negb].
  rewrite (direct_flags_store (Callbacks.type options) (Callbacks.options options)).
  change (mkPrintOptions (Callbacks.printer options) None (Callbacks.data options)
            None None None None None None None None None (Some (fresh (dom σ))))
    with (direct_request (supplied options) (fresh (dom σ))).
  change ((if JS.truthy_opt (Callbacks.type options)
           then ["-o"; JS.str (Callbacks.type options)] else [])
          ++ concat ((fun '(key, value) => ["-o"; key +:+ "=" +:+ value])
                       <$> default [] (Callbacks.options options)))
    with (direct_flags (supplied options)).
  set (l := fresh (dom σ)). set (τ := <[l := direct_flags (supplied options)]> σ).
  pose proof (direct_request_valid (supplied options) l Hc) as Hv.
  rewrite (lp_print_args os (direct_request (supplied options) l) l
             (direct_flags (supplied options)) τ eq_refl (lookup_insert_eq _ _ _) Hv).
  cbn [spawned heap returned]. rewrite (submitted_spawn os _ _ Hv).
  exists (submission (direct_request (supplied options) l)
            (direct_flags (supplied options)
             ++ generated (direct_request (supplied options) l))).
  unfold settled.
  destruct (Callbacks.then_ _ _) as [called reason].
  destruct (Callbacks.catch_ _ _) as [called' reason'].
  cbn [spawned heap returned].
  split; [reflexivity |]. split; [reflexivity |]. split; [reflexivity |].
  split; [| split; reflexivity].
  intros l' Hl'. subst τ. rewrite insert_insert_eq. apply lookup_insert_ne. intros <-.
  apply (is_fresh (dom σ)). now apply elem_of_dom.
Qed.

Ltac settle_hyps :=
  repeat first
    [ progress simplify_eq
    | match goal with
      | H : _ /\ _ |- _ => destruct H
      | H : ex _ |- _ => destruct H
      | H : _ \/ _ |- _ => destruct H
      | H : False |- _ => destruct H
      | H : _ ∈ _ |- _ => progress rewrite ?elem_of_cons, ?elem_of_nil in H
      | H : spawn _ ?i = _, H' : spawn _ ?i = _ |- _ => rewrite H in H'
      | H : spawn _ ?i = _, H' : context [spawn _ ?i] |- _ => rewrite H in H'; cbn in H'
      | H : @eq Callbacks.completion ?a _, H' : @eq Callbacks.completion ?a _ |- _ =>
          rewrite H in H'
      end ].

Ltac settle :=
  unfold fails_with, fails in *; intros; settle_hyps;
  rewrite ?elem_of_cons, ?elem_of_nil;
  try solve
    [ eauto 12
    | naive_solver eauto 12
    | repeat eexists;
      first [ reflexivity | apply list_elem_of_here | eassumption
            | left; eassumption | right; eassumption ] ].

(** X16.  What [printDirect] does with its two callbacks, whatever they
    do.  It starts the processes and leaves the store of the model that
    records only which callbacks are supplied: a process exactly for a
    complete request, and no array that was in the store is changed.
    For an incomplete request it calls nothing after it returns; it
    calls the error callback, when that is a function, once, with the
    error of the first failed check; and it throws when the error
    callback is missing, when it is not a function, and what the error
    callback throws.  For a complete request it never throws; it calls
    the success callback, when that is a function, exactly when [lp]
    closes with code 0, with the job id of its output; it calls the
    error callback exactly when that call of the success callback
    fails, with its failure, and after it; the promise at the end of the
    chain is rejected exactly with the failure of that call of the error
    callback, or with the failure of the success callback when the error
    callback is not a function; and when [lp] fails it calls nothing.
    When each callback is missing or a function that returns, this is
    what the model with presence flags reports. *)
Theorem printDirect_callbacks options (σ : store) :
  let o := Callbacks.printDirect os options σ in
  let seen := returned o in
  let req := supplied options in
  (spawned o = spawned (printDirect os req σ)
   /\ heap o = heap (printDirect os req σ)
   /\ (spawned o = [] <-> complete req = false)
   /\ (forall l, is_Some (σ !! l) -> heap o !! l = σ !! l))
  /\ (complete req = false ->
      Callbacks.rejected seen = None
      /\ (forall c, c ∈ Callbacks.calls seen <->
            exists g m, Callbacks.error options = Callbacks.Callable g
                        /\ validation_error req = Some m
                        /\ c = Callbacks.ErrorCall (Error m))
      /\ (length (Callbacks.calls seen) <= 1)%nat
      /\ (forall e, Callbacks.thrown seen = Some e <->
            (Callbacks.error options = Callbacks.Missing
             /\ e = Error "No error callback provided")
            \/ (Callbacks.error options = Callbacks.NotCallable /\ e = TypeError)
            \/ (exists g m, Callbacks.error options = Callbacks.Callable g
                            /\ validation_error req = Some m
                            /\ g (Error m) = Callbacks.Raises e)))
  /\ (complete req = true ->
      Callbacks.thrown seen = None
      /\ (forall jobId, Callbacks.SuccessCall jobId ∈ Callbacks.calls seen <->
            (exists f, Callbacks.success options = Callbacks.Callable f)
            /\ exists inv out err,
                 spawned o = [inv]
                 /\ spawn os inv = Close (Some 0%Z) out err /\ jobId = callback out)
      /\ (forall e, Callbacks.ErrorCall e ∈ Callbacks.calls seen <->
            exists f g jobId,
              Callbacks.success options = Callbacks.Callable f
              /\ Callbacks.error options = Callbacks.Callable g
              /\ Callbacks.SuccessCall jobId ∈ Callbacks.calls seen
              /\ fails_with (f jobId) e)
      /\ (Callbacks.calls seen = []
          \/ (exists jobId, Callbacks.calls seen = [Callbacks.SuccessCall jobId])
          \/ (exists jobId e,
                Callbacks.calls seen
                = [Callbacks.SuccessCall jobId; Callbacks.ErrorCall e]))
      /\ (forall e', Callbacks.rejected seen = Some e' <->
            exists f jobId e,
              Callbacks.success options = Callbacks.Callable f
              /\ Callbacks.SuccessCall jobId ∈ Callbacks.calls seen
              /\ fails_with (f jobId) e
              /\ match Callbacks.error options with
                 | Callbacks.Callable g => fails_with (g e) e'
                 | _ => e' = e
                 end)
      /\ ((exists inv, spawned o = [inv] /\ fails (spawn os inv)) ->
          Callbacks.calls seen = [] /\ Callbacks.rejected seen = None))
  /\ ((forall f jobId, Callbacks.success options = Callbacks.Callable f ->
                       f jobId = Callbacks.Returns) ->
      (forall g e, Callbacks.error options = Callbacks.Callable g ->
                   g e = Callbacks.Returns) ->
      Callbacks.success options <> Callbacks.NotCallable ->
      Callbacks.error options <> Callbacks.NotCallable ->
      seen = match returned (printDirect os req σ) with
             | Throws e => Callbacks.mkObserved [] (Some e) None
             | ErrorCalled e => Callbacks.mkObserved [Callbacks.ErrorCall e] None None
             | SuccessCalled jobId =>
                 Callbacks.mkObserved [Callbacks.SuccessCall jobId] None None
             | NeitherCalled => Callbacks.mkObserved [] None None
             end).
Proof.
  cbv zeta. destruct (complete (supplied options)) eqn:Hc.
  - destruct (Callbacks_printDirect_complete options σ Hc)
      as (inv & Hsp & Hsp' & Hheap & Hframe & Hret' & Hret).
    rewrite Hsp, Hsp', Hret, Hret'. clear Hsp Hsp' Hret Hret'.
    pose proof Hc as Hc'. unfold complete in Hc'. cbn in Hc'.
    apply andb_true_iff in Hc' as [[[He Hs]%andb_true_iff _]%andb_true_iff _].
    split.
    { split; [reflexivity |]. split; [exact Hheap |]. split; [split; discriminate |].
      exact Hframe. }
    clear Hheap Hframe.
    split; [discriminate |].
    assert ((exists out err, spawn os inv = Close (Some 0%Z) out err
                             /\ settled os inv = Fulfilled (callback out))
            \/ (fails (spawn os inv) /\ settled os inv = Pending)) as Hset.
    { unfold settled.
      destruct (spawn os inv) as [code out err|err];
        [destruct (decide (code = Some 0%Z)) as [->|Hcode] |]; cbn; eauto 6. }
    unfold then_callbacks.
    destruct (Callbacks.success options) as [| |f] eqn:Es; [discriminate Hs | |];
      (destruct (Callbacks.error options) as [| |g] eqn:Ee; [discriminate He | |]);
      (destruct Hset as [(out & err & Hspawn & ->)|[Hfail ->]]);
      cbn [Callbacks.then_ Callbacks.catch_];
      try (destruct (f (callback out)) as [|e|e] eqn:Ef);
      cbn [Callbacks.then_ Callbacks.catch_];
      try (destruct (g e) as [|e'|e'] eqn:Eg);
      cbn [Callbacks.calls Callbacks.thrown Callbacks.rejected app].
    all: split; [intros _ | ].
    all: try (intros Hf Hg Hns Hne; first [congruence | now rewrite ?(Hf f _ eq_refl) in *; rewrite ?(Hg g _ eq_refl) in * ]).
    all: repeat match goal with |- _ /\ _ => split end.
    all: try reflexivity.
    all: try (split; settle).
    all: try settle.
  - unfold complete, supplied in Hc. cbn in Hc.
    unfold Callbacks.printDirect, printDirect, validation_error, supplied,
      Callbacks.return_error.
    cbn [d_data d_printer d_type d_options success error].
    destruct (Callbacks.error options) as [| |g] eqn:Ee,
      (Callbacks.success options) as [| |f] eqn:Es,
      (payload_truthy (Callbacks.data options)),
      (JS.truthy_opt (Callbacks.printer options));
      try discriminate Hc;
      cbn [Callbacks.truthy negb spawned heap returned
           Callbacks.calls Callbacks.thrown Callbacks.rejected];
      (split; [repeat split; reflexivity |]);
      (split; [intros _ | split; [discriminate |]]).
    all: try (intros Hf Hg Hns Hne;
              first [congruence | now rewrite ?(Hg g _ eq_refl)]).
    all: repeat match goal with |- _ /\ _ => split end.
    all: try reflexivity.
    all: try (cbn; lia).
    all: try (split; settle).
    all: try match goal with
             | H : match ?c with _ => _ end = Some _ |- _ =>
                 destruct c eqn:?; simplify_eq; right; right; eauto
             | H : _ = Callbacks.Raises _ |- _ => now rewrite H
             end.
Qed.


End Direct_more.

(** ** The status snapshot and the directory *)

Section Directory_more.

Variable os : system.

Lemma runCommandSync_inv inv :
  stdin inv = None ->
  runCommandSync os (command inv) (argv inv) =
    if decide (status (spawnSync os inv) = Some 0%Z)
    then inl (default "" (stdout (spawnSync os inv)))
    else runCommandSync os (command inv) (argv inv).
Proof.
  destruct inv as [cmd args i]. cbn. intros ->. unfold runCommandSync.
  now destruct (decide _).
Qed.

(** The blocking load, command by command: the processes started are
    those of the keys up to the first command that fails; a load that
    ends well has run them all and holds the output of each under its
    key. *)
Lemma load_sync_trace keys : forall stats,
  (forall key, key ∈ keys -> key ∈ lpstat_keys) ->
  match load_sync os keys stats with
  | (log, inl stats') =>
      log = invocation_of <$> keys
      /\ Forall (fun inv => status (spawnSync os inv) = Some 0%Z) (invocation_of <$> keys)
      /\ stats' =
         fold_left
           (fun st key => <[key := default "" (stdout (spawnSync os (invocation_of key)))]> st)
           keys stats
  | (log, inr e) =>
      exists n inv,
        log = take (S n) (invocation_of <$> keys)
        /\ (invocation_of <$> keys) !! n = Some inv
        /\ Forall (fun inv => status (spawnSync os inv) = Some 0%Z)
             (take n (invocation_of <$> keys))
        /\ status (spawnSync os inv) <> Some 0%Z
        /\ runCommandSync os (command inv) (argv inv) = inr e
  end.
Proof.
  induction keys as [|key keys IH]; intros stats Hk.
  - cbn. repeat split. constructor.
  - destruct (lpstat_command_keys key) as (cmd & args & Hc & _); [apply Hk; left |].
    assert (invocation_of key = mkInvocation cmd args None) as Hinv
      by (unfold invocation_of; now rewrite Hc).
    cbn [load_sync fmap list_fmap]. rewrite Hc.
    change (list_fmap string invocation invocation_of keys) with (invocation_of <$> keys).
    unfold runCommandSync at 1.
    destruct (decide (status (spawnSync os (mkInvocation cmd args None)) = Some 0%Z)) as [H0|H0].
    + specialize (IH (<[key := default "" (stdout (spawnSync os (mkInvocation cmd args None)))]> stats)).
      destruct (load_sync os keys _) as [log [stats'|e]].
      * destruct IH as (-> & Hall & ->); [intros k Hk'; apply Hk; now right |].
        cbn [fold_left]. rewrite Hinv.
        split; [reflexivity |]. split; [now constructor |]. reflexivity.
      * destruct IH as (n & inv & -> & Hn & Hall & Hbad & Hrun);
          [intros k Hk'; apply Hk; now right |].
        exists (S n), inv. rewrite Hinv. cbn [take lookup list_lookup].
        repeat split; auto; try now constructor.
    + exists 0, (mkInvocation cmd args None). rewrite Hinv. cbn [take lookup list_lookup].
      repeat split; auto. unfold runCommandSync. cbn [command argv].
      now rewrite decide_False by exact H0.
Qed.

(** A snapshot object with the five keys destructures to its texts. *)
Lemma stats_of_object_inserts p a s d l :
  stats_of_object
    (<["details" := l]> (<["default" := d]> (<["addresses" := s]>
       (<["accepting" := a]> (<["printers" := p]> ∅)))))
  = Some (mkStats p a s d l).
Proof. unfold stats_of_object. now simplify_map_eq. Qed.

Lemma invocation_of_keys : invocation_of <$> lpstat_keys = lpstat_invocations.
Proof. reflexivity. Qed.

(** X17.  The blocking load when the five commands succeed: the five
    commands are run in the order -p, -a, -s, -d, -l -p, the directory
    becomes loaded, and its list is what the parser makes of the output
    of the five commands, each under its own key; the timer is kept. *)
Theorem getPrinters_cold_success this :
  Printer.printersLoaded this = false ->
  (forall inv, inv ∈ lpstat_invocations -> status (spawnSync os inv) = Some 0%Z) ->
  Printer.getPrinters os this =
    Printer.mkCall
      (Printer.mk (extractPrinters (snapshot (sync_output os))) true
         (Printer.refreshInterval this))
      lpstat_invocations None
      (inl (extractPrinters (snapshot (sync_output os)))).
Proof.
  intros Hl Hok. unfold Printer.getPrinters. rewrite Hl. cbn [negb].
  pose proof (load_sync_trace lpstat_keys ∅ (fun _ H => H)) as Ht.
  destruct (load_sync os lpstat_keys ∅) as [log [stats|e]].
  - destruct Ht as (-> & _ & ->). rewrite invocation_of_keys.
    assert (stats_of_object
              (fold_left
                 (fun st key =>
                    <[key := default "" (stdout (spawnSync os (invocation_of key)))]> st)
                 lpstat_keys ∅)
            = Some (snapshot (sync_output os))) as ->; [| reflexivity].
    unfold lpstat_keys, lpstat_commands. cbn [fmap list_fmap fst fold_left].
    unfold stats_of_object.
    apply stats_of_object_inserts.
  - exfalso. destruct Ht as (n & inv & _ & Hn & _ & Hbad & _).
    apply Hbad, Hok. rewrite <- invocation_of_keys.
    now apply list_elem_of_lookup_2 in Hn.
Qed.

(** X18.  The blocking load stops at the first command that fails: the
    processes started are the first of the five commands, in order;
    every one but the last has succeeded; when the load throws, the last
    one is the command that failed, the error is its error, and no later
    command is started; when it returns, all five have run. *)
Theorem getPrinters_cold_trace this :
  Printer.printersLoaded this = false ->
  exists n,
    Printer.started (Printer.getPrinters os this) = take (S n) lpstat_invocations
    /\ n < 5
    /\ Forall (fun inv => status (spawnSync os inv) = Some 0%Z) (take n lpstat_invocations)
    /\ match Printer.result (Printer.getPrinters os this) with
       | inl _ =>
           n = 4 /\ Forall (fun inv => status (spawnSync os inv) = Some 0%Z) lpstat_invocations
       | inr e =>
           exists inv,
             lpstat_invocations !! n = Some inv
             /\ status (spawnSync os inv) <> Some 0%Z
             /\ runCommandSync os (command inv) (argv inv) = inr e
       end.
Proof.
  intros Hl. unfold Printer.getPrinters. rewrite Hl. cbn [negb].
  pose proof (load_sync_trace lpstat_keys ∅ (fun _ H => H)) as Ht.
  rewrite invocation_of_keys in Ht.
  destruct (load_sync os lpstat_keys ∅) as [log [stats|e]].
  - destruct Ht as (-> & Hall & ->).
    exists 4.
    assert (exists st, stats_of_object
              (fold_left
                 (fun st key =>
                    <[key := default "" (stdout (spawnSync os (invocation_of key)))]> st)
                 lpstat_keys ∅) = Some st) as [st ->]
      by (eexists; apply stats_of_object_inserts).
    cbn [Printer.started Printer.result].
    split; [reflexivity |]. split; [lia |]. split; [| auto].
    now apply Forall_take.
  - destruct Ht as (n & inv & -> & Hn & Hall & Hbad & Hrun).
    exists n. cbn [Printer.started Printer.result].
    split; [reflexivity |]. split; [| split; [exact Hall | eauto]].
    apply lookup_lt_Some in Hn. exact Hn.
Qed.

Lemma fmap_Fulfilled_inj {A} (xs ys : list A) :
  Fulfilled <$> xs = Fulfilled <$> ys -> xs = ys.
Proof.
  revert ys. induction xs as [|x xs IH]; intros [|y ys]; try discriminate; [reflexivity |].
  cbn [fmap list_fmap]. intros [= -> H]. f_equal. now apply IH.
Qed.

(** [Promise.all] of fulfilled promises is fulfilled with their values. *)
Lemma Promise_all_fulfilled {A} (vs : list A) r :
  Promise_all (Fulfilled <$> vs) r -> r = Fulfilled vs.
Proof.
  intros H. inversion H as [ws Hws Hr|ps e He Hps Hr|ps Hp Hno Hps Hr].
  - f_equal. now apply fmap_Fulfilled_inj.
  - apply list_elem_of_fmap in He as (v & Hv & _). discriminate.
  - apply list_elem_of_fmap in Hp as (v & Hv & _). discriminate.
Qed.

(** The promises of the background load when the five commands succeed. *)
Lemma load_async_success :
  (forall inv, inv ∈ lpstat_invocations -> exists out err, spawn os inv = Close (Some 0%Z) out err) ->
  load_async os =
    (lpstat_invocations,
     Fulfilled <$> [async_output os ["-p"]; async_output os ["-a"]; async_output os ["-s"];
                    async_output os ["-d"]; async_output os ["-l"; "-p"]]).
Proof.
  intros Hok. rewrite load_async_eq. unfold lpstat_invocations. f_equal.
  cbn [fmap list_fmap]. unfold runCommand, async_output.
  repeat match goal with
         | |- context [spawn os (mkInvocation "lpstat" ?a None)] =>
             let H := fresh in
             destruct (Hok (mkInvocation "lpstat" a None)) as (? & ? & H);
             [unfold lpstat_invocations; rewrite !elem_of_cons; auto 10 |];
             rewrite H; clear H
         end.
  reflexivity.
Qed.

(** X19.  The background refresh of a loaded directory when the five
    commands succeed: [getPrinters] starts the five commands and returns
    the cached list as it is, without changing the directory; once the
    commands have ended, the list of the directory is what the parser
    makes of their output, the directory is still loaded, and the timer
    is kept. *)
Theorem getPrinters_refresh_success this :
  Printer.printersLoaded this = true ->
  (forall inv, inv ∈ lpstat_invocations -> exists out err, spawn os inv = Close (Some 0%Z) out err) ->
  Printer.result (Printer.getPrinters os this) = inl (Printer.printers this)
  /\ Printer.this' (Printer.getPrinters os this) = this
  /\ Printer.started (Printer.getPrinters os this) = lpstat_invocations
  /\ exists ps,
       Printer.refresh (Printer.getPrinters os this) = Some ps
       /\ (exists that, Printer.refresh_settles this ps that)
       /\ forall that,
            Printer.refresh_settles this ps that ->
            that = Printer.mk (extractPrinters (snapshot (async_output os))) true
                     (Printer.refreshInterval this).
Proof.
  intros Hl Hok. rewrite (getPrinters_warm os this Hl), (load_async_success Hok).
  cbn [Printer.result Printer.this' Printer.started Printer.refresh fst snd].
  repeat (split; [reflexivity |]). eexists. split; [reflexivity |].
  assert (Printer.on_responses this
              [async_output os ["-p"]; async_output os ["-a"]; async_output os ["-s"];
               async_output os ["-d"]; async_output os ["-l"; "-p"]]
            = Printer.mk (extractPrinters (snapshot (async_output os))) true
                (Printer.refreshInterval this)) as Hon.
  { unfold Printer.on_responses, lpstat_keys, lpstat_commands.
    cbn [fmap list_fmap fst zip zip_with fold_left].
    now rewrite stats_of_object_inserts. }
  split.
  - eexists. apply Printer.refresh_applied. apply all_fulfilled.
  - intros that Hs. inversion Hs as [responses Hr Heq|e Hr Heq];
      apply Promise_all_fulfilled in Hr; [| discriminate Hr].
    injection Hr as ->. exact Hon.
Qed.

(** X20.  After [autoRefresh], whatever the interval, a loaded directory
    answers [getPrinter] from its cache: no process is started, nothing
    is refreshed and the directory does not change.  The interval of the
    timer is the one given, or 15000 when none or 0 is given. *)
Theorem autoRefresh_then_getPrinter this interval printerName :
  Printer.printersLoaded this = true ->
  Printer.getPrinter os (Printer.autoRefresh this interval) printerName =
    Printer.mkCall (Printer.autoRefresh this interval) [] None
      (inl (JS.find (fun p => bool_decide (name p = Some printerName))
              (Printer.printers this)))
  /\ Printer.refreshInterval (Printer.autoRefresh this interval)
     = Some (match interval with
             | Some z => if (z =? 0)%Z then 15000%Z else z
             | None => 15000%Z
             end).
Proof.
  intros Hl. split.
  - rewrite getPrinter_cached; [reflexivity | exact Hl |].
    cbn [Printer.autoRefresh Printer.refreshInterval]. eauto.
  - cbn [Printer.autoRefresh Printer.refreshInterval]. f_equal.
    destruct interval as [z|]; [| reflexivity]. cbn [num_truthy default].
    now destruct (z =? 0)%Z.
Qed.

Lemma find_name_Some (l : list PrinterDetails) printerName p :
  JS.find (fun p => bool_decide (name p = Some printerName)) l = Some p ->
  name p = Some printerName /\ p ∈ l.
Proof.
  intros (pre & post & -> & Hn%bool_decide_eq_true & _)%find_Some.
  split; [exact Hn |]. apply elem_of_app. right. left.
Qed.

(** What [getPrinter] returns is what [find] gives on the directory as
    the call leaves it. *)
Lemma getPrinter_result this printerName found :
  Printer.result (Printer.getPrinter os this printerName) = inl found ->
  found = JS.find (fun p => bool_decide (name p = Some printerName))
            (Printer.printers (Printer.this' (Printer.getPrinter os this printerName))).
Proof.
  unfold Printer.getPrinter.
  destruct (negb (Printer.printersLoaded this)
            || negb (bool_decide (is_Some (Printer.refreshInterval this)))).
  - destruct (Printer.result (Printer.getPrinters os this));
      cbn [Printer.result Printer.this']; [| discriminate].
    now intros [= <-].
  - cbn [Printer.result Printer.this']. now intros [= <-].
Qed.

(** X21.  A record that [getPrinter] returns has the name asked for, is
    a record of the directory as the call leaves it, and is the first
    one with that name; the missing value is returned only when no
    record of the directory has the name. *)
Theorem getPrinter_found this printerName :
  (forall p,
      Printer.result (Printer.getPrinter os this printerName) = inl (Some p) ->
      name p = Some printerName
      /\ exists before after,
           Printer.printers (Printer.this' (Printer.getPrinter os this printerName))
           = before ++ p :: after
           /\ Forall (fun q => name q <> Some printerName) before)
  /\ (Printer.result (Printer.getPrinter os this printerName) = inl None ->
      forall q,
        q ∈ Printer.printers (Printer.this' (Printer.getPrinter os this printerName)) ->
        name q <> Some printerName).
Proof.
  split.
  - intros p Hr. apply getPrinter_result in Hr. symmetry in Hr.
    apply find_Some in Hr as (pre & post & Hl & Hn%bool_decide_eq_true & Hpre).
    split; [exact Hn |]. exists pre, post. split; [exact Hl |].
    eapply Forall_impl; [exact Hpre |]. intros q Hq. now apply bool_decide_eq_false in Hq.
  - intros Hr q Hq. apply getPrinter_result in Hr. symmetry in Hr.
    apply find_None in Hr. rewrite Forall_forall in Hr.
    specialize (Hr q Hq). now apply bool_decide_eq_false in Hr.
Qed.

(** X22.  [print] starts [lp] only for a printer of the directory: when
    it starts a process, a record of the directory, as the lookup leaves
    it, has the name of the request, and what happens is what [lp_print]
    does; a request without a printer name is rejected before any
    lookup. *)
Theorem print_starts_lp_only_for_known_printer this options (σ : store) :
  (spawned (snd (Printer.print os this options σ)) <> [] ->
   (exists p,
       p ∈ Printer.printers (Printer.this' (fst (Printer.print os this options σ)))
       /\ name p = Some (JS.str (printer options)))
   /\ snd (Printer.print os this options σ) = lp_print os options σ)
  /\ (JS.truthy_opt (printer options) = false ->
      Printer.print os this options σ
      = (Printer.mkCall this [] None (inl ()),
         mkOutcome σ [] (Rejected (Error "Printer name is required")))).
Proof.
  unfold Printer.print. split.
  - destruct (JS.truthy_opt (printer options)); cbn [negb snd spawned fst];
      [| intros H; now destruct H].
    destruct (Printer.result (Printer.getPrinter os this (JS.str (printer options))))
      as [[p|]|e] eqn:Hr; cbn [snd spawned fst Printer.this'];
      try (intros H; now destruct H).
    intros _. split; [| reflexivity].
    exists p. apply getPrinter_result in Hr. symmetry in Hr.
    destruct (find_name_Some _ _ _ Hr) as [Hn Hin]. auto.
  - now intros ->.
Qed.

(** X23.  A failure of the status commands does reach the caller of
    [print]: on an unloaded directory, when a status command fails, the
    promise of [print] is rejected with the error of a failed command,
    [lp] is not started and the directory stays unloaded. *)
Theorem print_cold_failure_rejects this options (σ : store) :
  JS.truthy_opt (printer options) = true ->
  Printer.printersLoaded this = false ->
  (exists inv, inv ∈ lpstat_invocations /\ status (spawnSync os inv) <> Some 0%Z) ->
  exists e key cmd args,
    snd (Printer.print os this options σ) = mkOutcome σ [] (Rejected e)
    /\ (key, cmd :: args) ∈ lpstat_commands
    /\ runCommandSync os cmd args = inr e
    /\ Printer.this' (fst (Printer.print os this options σ)) = this.
Proof.
  intros Hp Hl (inv & Hin & Hbad).
  unfold Printer.print, Printer.getPrinter. rewrite Hp, Hl. cbn [negb orb].
  pose proof (getPrinters_cold os this Hl) as (_ & _ & Hres). cbv zeta in Hres.
  destruct (Printer.result (Printer.getPrinters os this)) as [ps|e] eqn:Hr.
  - exfalso. destruct Hres as (_ & _ & Hok). apply Hbad.
    unfold lpstat_invocations in Hin. rewrite !elem_of_cons, elem_of_nil in Hin.
    decompose [or] Hin; try contradiction; subst inv.
    + apply (Hok "printers"). unfold lpstat_commands. rewrite !elem_of_cons. auto 10.
    + apply (Hok "accepting"). unfold lpstat_commands. rewrite !elem_of_cons. auto 10.
    + apply (Hok "addresses"). unfold lpstat_commands. rewrite !elem_of_cons. auto 10.
    + apply (Hok "default"). unfold lpstat_commands. rewrite !elem_of_cons. auto 10.
    + apply (Hok "details"). unfold lpstat_commands. rewrite !elem_of_cons. auto 10.
  - destruct Hres as (Ht & key & cmd & args & Hk & Hrun).
    cbn [Printer.result snd fst Printer.this'].
    exists e, key, cmd, args. auto.
Qed.

(** X24.  The method [printDirect] does not catch the failure of the
    blocking load: with an error callback and a printer name, on an
    unloaded directory where a status command fails, it throws the
    error of a failed command and calls no callback.  It starts [lp]
    only for a printer of the directory, and then does what the function
    [printDirect] does. *)
Theorem Printer_printDirect_outcome this options (σ : store) :
  (error options = true -> JS.truthy_opt (d_printer options) = true ->
   Printer.printersLoaded this = false ->
   (exists inv, inv ∈ lpstat_invocations /\ status (spawnSync os inv) <> Some 0%Z) ->
   exists e key cmd args,
     snd (Printer.printDirect os this options σ) = mkOutcome σ [] (Throws e)
     /\ (key, cmd :: args) ∈ lpstat_commands
     /\ runCommandSync os cmd args = inr e)
  /\ (spawned (snd (Printer.printDirect os this options σ)) <> [] ->
      (exists p,
          p ∈ Printer.printers (Printer.this' (fst (Printer.printDirect os this options σ)))
          /\ name p = Some (JS.str (d_printer options)))
      /\ snd (Printer.printDirect os this options σ) = printDirect os options σ).
Proof.
  split.
  - intros He Hp Hl (inv & Hin & Hbad).
    unfold Printer.printDirect, Printer.getPrinter. rewrite He, Hp, Hl. cbn [negb orb].
    pose proof (getPrinters_cold os this Hl) as (_ & _ & Hres). cbv zeta in Hres.
    destruct (Printer.result (Printer.getPrinters os this)) as [ps|e] eqn:Hr.
    + exfalso. destruct Hres as (_ & _ & Hok). apply Hbad.
      unfold lpstat_invocations in Hin. rewrite !elem_of_cons, elem_of_nil in Hin.
      decompose [or] Hin; try contradiction; subst inv.
      * apply (Hok "printers"). unfold lpstat_commands. rewrite !elem_of_cons. auto 10.
      * apply (Hok "accepting"). unfold lpstat_commands. rewrite !elem_of_cons. auto 10.
      * apply (Hok "addresses"). unfold lpstat_commands. rewrite !elem_of_cons. auto 10.
      * apply (Hok "default"). unfold lpstat_commands. rewrite !elem_of_cons. auto 10.
      * apply (Hok "details"). unfold lpstat_commands. rewrite !elem_of_cons. auto 10.
    + destruct Hres as (Ht & key & cmd & args & Hk & Hrun).
      cbn [Printer.result snd]. exists e, key, cmd, args. auto.
  - unfold Printer.printDirect.
    destruct (error options); cbn [negb snd spawned fst];
      [| intros H; now destruct H].
    destruct (JS.truthy_opt (d_printer options)); cbn [negb snd spawned fst];
      [| intros H; now destruct H].
    destruct (Printer.result (Printer.getPrinter os this (JS.str (d_printer options))))
      as [[p|]|e] eqn:Hr; cbn [snd spawned fst Printer.this'];
      try (intros H; now destruct H).
    intros _. split; [| reflexivity].
    exists p. apply getPrinter_result in Hr. symmetry in Hr.
    destruct (find_name_Some _ _ _ Hr) as [Hn Hin]. auto.
Qed.

End Directory_more.

(** ** The earlier version *)

Section Earlier.

Variable os : system.

(** The two parsers walk the listing in step. *)
Lemma Vovk_extract_fold stats lines : forall cur res,
  fold_left Vovk.extract_line lines (name_only <$> cur, name_only <$> res)
  = (name_only <$> fst (fold_left (extract_line stats) lines (cur, res)),
     name_only <$> snd (fold_left (extract_line stats) lines (cur, res))).
Proof.
  induction lines as [|line lines IH]; intros cur res; [reflexivity |].
  cbn [fold_left].
  assert (Vovk.extract_line (name_only <$> cur, name_only <$> res) line
          = (name_only <$> fst (extract_line stats (cur, res) line),
             name_only <$> snd (extract_line stats (cur, res) line))) as ->.
  { unfold Vovk.extract_line, extract_line.
    destruct (decide (JS.split " " line !! 0 = Some "printer")).
    - cbn [fst snd]. now rewrite fmap_app.
    - destruct cur as [p|]; cbn [fmap option_fmap option_map fst snd];
        [now rewrite fmap_app | reflexivity]. }
  destruct (extract_line stats (cur, res) line) as [cur' res']. apply IH.
Qed.

Lemma Vovk_extractPrinters_eq stats :
  Vovk.extractPrinters (printers stats) = name_only <$> extractPrinters stats.
Proof.
  unfold Vovk.extractPrinters, extractPrinters.
  now rewrite (Vovk_extract_fold stats _ None []).
Qed.

(** X25.  The earlier parser returns the records of the later one with
    the name only: the same number of records, in the same order, with
    the same names; none is the default printer and none has options. *)
Theorem Vovk_extractPrinters_names stats :
  Vovk.extractPrinters (printers stats) = name_only <$> extractPrinters stats
  /\ length (Vovk.extractPrinters (printers stats))
     = length (from_first_header (JS.split JS.LF (printers stats)))
  /\ forall r, r ∈ Vovk.extractPrinters (printers stats) ->
               isDefault r = false /\ options r = ∅.
Proof.
  pose proof (Vovk_extractPrinters_eq stats) as E.
  split; [exact E |]. split.
  - now rewrite E, length_fmap, extractPrinters_length.
  - intros r. rewrite E. intros (r' & -> & _)%list_elem_of_fmap. split; reflexivity.
Qed.

(** X26.  The two versions of [lp_print] start the same process and
    leave the same store; their promises end alike, the later one with
    the number after the last "-" of the job id of the earlier one. *)
Theorem Vovk_lp_print_agrees options (σ : store) :
  heap (lp_print os options σ) = heap (Vovk.lp_print os options σ)
  /\ spawned (lp_print os options σ) = spawned (Vovk.lp_print os options σ)
  /\ returned (lp_print os options σ) = converted (returned (Vovk.lp_print os options σ)).
Proof.
  assert (forall p, then_resolve p = converted (Vovk.then_resolve p)) as Hthen.
  { intros [|response|e]; cbn; [reflexivity | | reflexivity].
    now rewrite callback_after_Vovk. }
  unfold lp_print, Vovk.lp_print.
  destruct (match args options with
            | Some l => (l, σ)
            | None => (fresh (dom σ), <[fresh (dom σ) := []]> σ)
            end) as [l τ].
  destruct (JS.truthy_opt (printer options)); cbn [negb];
    [| repeat split].
  destruct (payload_truthy (data options)) eqn:Hd,
    (JS.truthy_opt (file options)) eqn:Hf; cbn [negb andb];
    try (repeat split; apply Hthen).
  destruct (data options); [| discriminate Hd]. repeat split. apply Hthen.
Qed.

(** X27.  The earlier [getPrinters] on an unloaded directory runs the
    one command [lpstat -p -d].  When it fails, the error is thrown and
    the directory is left as it was; when it succeeds, the directory is
    loaded with what the earlier parser makes of the output, and no
    record of it is the default printer or has options. *)
Theorem Vovk_getPrinters_cold this :
  Printer.printersLoaded this = false ->
  Printer.started (Vovk.getPrinters os this) = [mkInvocation "lpstat" ["-p"; "-d"] None]
  /\ Printer.refresh (Vovk.getPrinters os this) = None
  /\ match Printer.result (Vovk.getPrinters os this) with
     | inl ps =>
         status (spawnSync os (mkInvocation "lpstat" ["-p"; "-d"] None)) = Some 0%Z
         /\ ps = Vovk.extractPrinters (sync_output os ["-p"; "-d"])
         /\ Vovk.getPrinters os this =
            Printer.mkCall (Printer.mk ps true (Printer.refreshInterval this))
              [mkInvocation "lpstat" ["-p"; "-d"] None] None (inl ps)
         /\ forall r, r ∈ ps -> isDefault r = false /\ options r = ∅
     | inr e =>
         status (spawnSync os (mkInvocation "lpstat" ["-p"; "-d"] None)) <> Some 0%Z
         /\ Printer.this' (Vovk.getPrinters os this) = this
         /\ runCommandSync os "lpstat" ["-p"; "-d"] = inr e
     end.
Proof.
  intros Hl. unfold Vovk.getPrinters. rewrite Hl. cbn [negb].
  destruct (runCommandSync os "lpstat" ["-p"; "-d"]) as [out|e] eqn:Hrun;
    cbn [Printer.started Printer.refresh Printer.result Printer.this' Printer.printers].
  - assert (status (spawnSync os (mkInvocation "lpstat" ["-p"; "-d"] None)) = Some 0%Z) as H0
      by (apply runCommandSync_ok; eauto).
    assert (out = sync_output os ["-p"; "-d"]) as ->.
    { unfold runCommandSync in Hrun. rewrite decide_True in Hrun by exact H0.
      now injection Hrun as <-. }
    split; [reflexivity |]. split; [reflexivity |]. split; [exact H0 |].
    split; [reflexivity |]. split; [reflexivity |].
    intros r Hr.
    pose proof (Vovk_extractPrinters_eq
                  (mkStats (sync_output os ["-p"; "-d"]) "" "" "" "")) as E.
    cbn [printers] in E. rewrite E in Hr.
    apply list_elem_of_fmap in Hr as (r' & -> & _). split; reflexivity.
  - split; [reflexivity |]. split; [reflexivity |].
    split; [| split; reflexivity].
    intros H0. apply runCommandSync_ok in H0 as [response Hr]. congruence.
Qed.

End Earlier.

(** ** Instances *)

Lemma zpl_record_in : header_record zpl_stats (Some "ZPL") ∈ extractPrinters zpl_stats.
Proof. vm_compute. left. Qed.

Lemma extractPrinters_isDefault_witness :
  header_record zpl_stats (Some "ZPL") ∈ extractPrinters zpl_stats
  /\ (isDefault (header_record zpl_stats (Some "ZPL")) = true <->
      occurs "ZPL" (defaultPrinter zpl_stats)).
Proof.
  split; [exact zpl_record_in |].
  exact (extractPrinters_isDefault zpl_stats _ zpl_record_in).
Defined.

Lemma extractPrinters_option_keys_witness :
  header_record zpl_stats (Some "ZPL") ∈ extractPrinters zpl_stats
  /\ is_Some (options (header_record zpl_stats (Some "ZPL")) !! "device-uri")
  /\ "device-uri"
     ∈ ["printer-is-accepting-jobs"; "device-uri"; "printer-info"; "printer-location"].
Proof.
  assert (is_Some (options (header_record zpl_stats (Some "ZPL")) !! "device-uri")) as H
    by (eexists; vm_compute; reflexivity).
  split; [exact zpl_record_in |]. split; [exact H |].
  exact (extractPrinters_option_keys zpl_stats _ "device-uri" zpl_record_in H).
Defined.

Lemma extractPrinters_descriptive_info_witness :
  header_record zpl_stats (Some "ZPL") ∈ extractPrinters zpl_stats
  /\ ("printer-info", "Description: ") ∈ lpstat_detail_ki
  /\ options (header_record zpl_stats (Some "ZPL")) !! "printer-info"
     = Some "Toshiba Label Printer"
  /\ exists block rest,
       block ∈ JS.split (JS.LF +:+ "printer") (details zpl_stats)
       /\ occurs ("ZPL" +:+ " ") block
       /\ ("Description: " +:+ rest) ∈ (JS.trim <$> JS.split JS.LF block)
       /\ "Toshiba Label Printer" = JS.trim rest.
Proof.
  assert (("printer-info", "Description: ") ∈ lpstat_detail_ki) as Hk by left.
  assert (options (header_record zpl_stats (Some "ZPL")) !! "printer-info"
          = Some "Toshiba Label Printer") as Hv by (vm_compute; reflexivity).
  split; [exact zpl_record_in |]. split; [exact Hk |]. split; [exact Hv |].
  exact (extractPrinters_descriptive_info zpl_stats _ _ _ _ zpl_record_in Hk Hv).
Defined.

Lemma request_P1_allocated : allocated request_P1 ∅.
Proof. intros l H. discriminate H. Qed.

Lemma lp_print_starts_iff_valid_witness :
  allocated request_P1 ∅
  /\ (spawned (lp_print cups_up request_P1 ∅) = [] <-> valid request_P1 = false).
Proof.
  split; [exact request_P1_allocated |].
  exact (proj1 (lp_print_starts_iff_valid cups_up request_P1 ∅ request_P1_allocated)).
Defined.


Lemma lp_print_fresh_array_frame_witness :
  args request_P1 = None
  /\ is_Some (one_array !! 1%positive)
  /\ heap (lp_print cups_up request_P1 one_array) !! 1%positive = one_array !! 1%positive.
Proof.
  assert (is_Some (one_array !! 1%positive)) as H by (eexists; reflexivity).
  split; [reflexivity |]. split; [exact H |].
  exact (lp_print_fresh_array_frame cups_up request_P1 one_array 1%positive eq_refl H).
Defined.

Lemma lp_print_twice_accumulates_witness :
  args request_extra = Some 1%positive
  /\ one_array !! 1%positive = Some ["-o"; "media=A4"]
  /\ valid request_extra = true
  /\ heap (lp_print cups_up request_extra (heap (lp_print cups_up request_extra one_array)))
       !! 1%positive
     = Some ["-o"; "media=A4"; "-o"; "raw"; "-d"; "P1"; "-o"; "raw"; "-d"; "P1"].
Proof.
  repeat (split; [reflexivity |]).
  exact (proj2 (lp_print_twice_accumulates cups_up request_extra 1%positive
                  ["-o"; "media=A4"] one_array eq_refl eq_refl eq_refl)).
Defined.

Lemma lp_print_format_flag_witness :
  args request_host = None /\ valid request_host = true
  /\ JS.truthy_opt (file request_host) = false
  /\ format request_host = "pdf".
Proof.
  repeat (split; [reflexivity |]).
  exact (proj2 (proj2 (proj2 (lp_print_format_flag cups_up request_host ∅
                                eq_refl eq_refl eq_refl))) "PDF" eq_refl eq_refl).
Defined.

Lemma lp_print_host_flag_witness :
  allocated request_host ∅ /\ valid request_host = true
  /\ host request_host = Some "cups.local" /\ JS.truthy "cups.local" = true
  /\ exists inv pre post,
       spawned (lp_print cups_up request_host ∅) = [inv]
       /\ argv inv = pre ++ "-h" :: "cups.local:631" :: post.
Proof.
  assert (allocated request_host ∅) as H by (intros l Hl; discriminate Hl).
  split; [exact H |]. repeat (split; [reflexivity |]).
  exact (lp_print_host_flag cups_up request_host ∅ "cups.local" H eq_refl eq_refl eq_refl).
Defined.

Lemma printDirect_command_line_witness :
  error direct_ZPL = true /\ success direct_ZPL = true
  /\ payload_truthy (d_data direct_ZPL) = true
  /\ JS.truthy_opt (d_printer direct_ZPL) = true
  /\ spawned (printDirect cups_up direct_ZPL ∅)
     = [mkInvocation "lp" ["-o"; "RAW"; "-o"; "media=A4"; "-o"; "raw"; "-d"; "ZPL"]
          (Some (Text "^XA^XZ"))].
Proof.
  repeat (split; [reflexivity |]).
  exact (printDirect_command_line cups_up direct_ZPL ∅ eq_refl eq_refl eq_refl eq_refl).
Defined.

Lemma cups_up_sync_ok inv :
  inv ∈ lpstat_invocations -> status (spawnSync cups_up inv) = Some 0%Z.
Proof. reflexivity. Qed.

Lemma cups_up_async_ok inv :
  inv ∈ lpstat_invocations -> exists out err, spawn cups_up inv = Close (Some 0%Z) out err.
Proof.
  unfold lpstat_invocations. rewrite !elem_of_cons, elem_of_nil.
  intros H; decompose [or] H; try contradiction; subst inv; eexists _, _; reflexivity.
Qed.

Lemma getPrinters_cold_success_witness :
  Printer.printersLoaded Printer.new = false
  /\ (forall inv, inv ∈ lpstat_invocations -> status (spawnSync cups_up inv) = Some 0%Z)
  /\ Printer.getPrinters cups_up Printer.new =
     Printer.mkCall
       (Printer.mk (extractPrinters (snapshot (sync_output cups_up))) true None)
       lpstat_invocations None
       (inl (extractPrinters (snapshot (sync_output cups_up)))).
Proof.
  split; [reflexivity |]. split; [exact cups_up_sync_ok |].
  exact (getPrinters_cold_success cups_up Printer.new eq_refl cups_up_sync_ok).
Defined.

Lemma getPrinters_cold_trace_witness :
  Printer.printersLoaded Printer.new = false
  /\ exists n,
       Printer.started (Printer.getPrinters cups_down Printer.new)
       = take (S n) lpstat_invocations
       /\ n < 5
       /\ Forall (fun inv => status (spawnSync cups_down inv) = Some 0%Z)
            (take n lpstat_invocations)
       /\ match Printer.result (Printer.getPrinters cups_down Printer.new) with
          | inl _ =>
              n = 4
              /\ Forall (fun inv => status (spawnSync cups_down inv) = Some 0%Z)
                   lpstat_invocations
          | inr e =>
              exists inv,
                lpstat_invocations !! n = Some inv
                /\ status (spawnSync cups_down inv) <> Some 0%Z
                /\ runCommandSync cups_down (command inv) (argv inv) = inr e
          end.
Proof.
  split; [reflexivity |].
  exact (getPrinters_cold_trace cups_down Printer.new eq_refl).
Defined.

Lemma getPrinters_refresh_success_witness :
  Printer.printersLoaded loaded_directory = true
  /\ (forall inv, inv ∈ lpstat_invocations ->
        exists out err, spawn cups_up inv = Close (Some 0%Z) out err)
  /\ Printer.started (Printer.getPrinters cups_up loaded_directory) = lpstat_invocations.
Proof.
  split; [reflexivity |]. split; [exact cups_up_async_ok |].
  exact (proj1 (proj2 (proj2 (getPrinters_refresh_success cups_up loaded_directory
                                eq_refl cups_up_async_ok)))).
Defined.

Lemma autoRefresh_then_getPrinter_witness :
  Printer.printersLoaded loaded_directory = true
  /\ Printer.refreshInterval (Printer.autoRefresh loaded_directory None) = Some 15000%Z.
Proof.
  split; [reflexivity |].
  exact (proj2 (autoRefresh_then_getPrinter cups_up loaded_directory None "ZPL" eq_refl)).
Defined.

Lemma cups_down_sync_fails :
  exists inv, inv ∈ lpstat_invocations /\ status (spawnSync cups_down inv) <> Some 0%Z.
Proof. exists (mkInvocation "lpstat" ["-p"] None). split; [left | discriminate]. Qed.

Lemma print_cold_failure_rejects_witness :
  JS.truthy_opt (printer request_ZPL) = true
  /\ Printer.printersLoaded Printer.new = false
  /\ (exists inv, inv ∈ lpstat_invocations /\ status (spawnSync cups_down inv) <> Some 0%Z)
  /\ exists e key cmd args,
       snd (Printer.print cups_down Printer.new request_ZPL ∅) = mkOutcome ∅ [] (Rejected e)
       /\ (key, cmd :: args) ∈ lpstat_commands
       /\ runCommandSync cups_down cmd args = inr e
       /\ Printer.this' (fst (Printer.print cups_down Printer.new request_ZPL ∅)) = Printer.new.
Proof.
  split; [reflexivity |]. split; [reflexivity |]. split; [exact cups_down_sync_fails |].
  exact (print_cold_failure_rejects cups_down Printer.new request_ZPL ∅
           eq_refl eq_refl cups_down_sync_fails).
Defined.

Lemma Vovk_getPrinters_cold_witness :
  Printer.printersLoaded Printer.new = false
  /\ Printer.started (Vovk.getPrinters cups_up Printer.new)
     = [mkInvocation "lpstat" ["-p"; "-d"] None].
Proof.
  split; [reflexivity |].
  exact (proj1 (Vovk_getPrinters_cold cups_up Printer.new eq_refl)).
Defined.

(** A success callback that throws after job 92 was accepted: the error
    callback receives what it threw, and what the error callback throws
    in turn rejects the promise at the end of the chain. *)
Lemma printDirect_throwing_callbacks :
  returned (Callbacks.printDirect cups_up direct_throwing ∅)
  = Callbacks.mkObserved
      [Callbacks.SuccessCall (JS.Int 92); Callbacks.ErrorCall (Error "success failed")]
      None (Some (Error "success failed")).
Proof. vm_compute. reflexivity. Qed.
